(* Verification of database/searches.go (mig): the search parameters, their
   query-string rendering, the identifier range resolver, the four query
   builders SearchCommands, SearchActions, SearchAgents, SearchInvestigators,
   and the reading of their result rows.

   Go strings are byte strings, modelled as Stdlib strings (the sentinel "∞"
   is its three UTF-8 bytes).  float64 is the primitive binary64 type.
   time.Time is an instant in nanoseconds with its location; a Duration is a
   number of nanoseconds.  The library functions the file calls and that are
   not part of this repository (strconv.ParseFloat, Time.Format(RFC3339), the
   float64 -> uint64 conversion, whose result the Go spec leaves to the
   implementation out of range) are parameters of the section below. *)

From Stdlib Require Import String Ascii ZArith List Bool Lia Floats
  DecimalString DecimalNat.
Import ListNotations.
Open Scope string_scope.

(** * Go formatting helpers *)

Definition NL : string := String (ascii_of_nat 10) EmptyString.
Definition TAB : string := String (ascii_of_nat 9) EmptyString.

(** [fmt.Sprintf("%d", n)] for a non-negative int. *)
Definition itoa (n : nat) : string := NilEmpty.string_of_uint (Nat.to_uint n).

(** [fmt.Sprintf("%.0f", x)]: the value rounded half to even to an integer,
    printed in decimal with a leading "-" for negative values (also for -0);
    NaN prints "NaN", the infinities "+Inf" and "-Inf". *)
Definition round_half_even (m : Z) (sh : positive) : Z :=
  let d := Z.pow 2 (Zpos sh) in
  let q := Z.div m d in
  let r := Z.modulo m d in
  let half := Z.div d 2 in
  if Z.ltb half r then (q + 1)%Z
  else if Z.eqb r half then (if Z.odd q then (q + 1)%Z else q)
  else q.

Definition format_f0 (x : float) : string :=
  match Prim2SF x with
  | S754_zero s => if s then "-0" else "0"
  | S754_infinity s => if s then "-Inf" else "+Inf"
  | S754_nan => "NaN"
  | S754_finite s m e =>
      let n := match e with
               | Z0 => Zpos m
               | Zpos k => (Zpos m * Z.pow 2 (Zpos k))%Z
               | Zneg k => round_half_even (Zpos m) k
               end in
      (if s then "-" else "") ++ NilEmpty.string_of_int (Z.to_int n)
  end.

(** * Time *)

Record Time := mkTime { wall : Z (* nanoseconds since the epoch *); loc : string }.

Definition Duration := Z.
Definition Hour : Duration := (3600 * 1000000000)%Z.

Definition Add (t : Time) (d : Duration) : Time := mkTime (wall t + d)%Z (loc t).
Definition UTC (t : Time) : Time := mkTime (wall t) "UTC".
Definition Before_ (t u : Time) : bool := Z.ltb (wall t) (wall u).
Definition After_ (t u : Time) : bool := Z.ltb (wall u) (wall t).

(** 10 years *)
Definition defaultSearchPeriod : Duration := (39600 * Hour)%Z.

(** * SearchParameters *)

Record SearchParameters := mkSearchParameters {
  ActionID : string;
  ActionName : string;
  After : Time;
  AgentID : string;
  AgentName : string;
  Before : Time;
  CommandID : string;
  FoundAnything : bool;
  InvestigatorID : string;
  InvestigatorName : string;
  Limit : float;
  Offset : float;
  Report : string;
  Status : string;
  Target : string;
  ThreatFamily : string;
  Type_ : string
}.

Definition INF : string := "∞".
Definition PCT : string := "%".

(** [NewSearchParameters()]: [now1] and [now2] are the two readings of
    [time.Now()], for Before and for After; the other fields keep the Go zero
    value. *)
Definition NewSearchParameters (now1 now2 : Time) : SearchParameters := {|
  Before := UTC (Add now1 defaultSearchPeriod);
  After := UTC (Add now2 (- defaultSearchPeriod)%Z);
  AgentName := PCT;
  AgentID := INF;
  ActionName := PCT;
  ActionID := INF;
  CommandID := INF;
  ThreatFamily := PCT;
  Status := PCT;
  Limit := 100%float;
  Offset := 0%float;
  InvestigatorID := INF;
  InvestigatorName := PCT;
  Type_ := "action";
  FoundAnything := false;
  Report := "";
  Target := ""
|}.

Definition neq (s t : string) : bool := negb (String.eqb s t).

(** * Values bound to positional parameters *)

(** The dynamic types of the values appended to [vals []interface{}]. *)
Inductive value :=
  | VTime (t : Time)
  | VFloat (f : float)
  | VString (s : string)
  | VBool (b : bool)
  | VUint64 (n : Z).

Record IDs := mkIDs {
  minActionID : float; maxActionID : float;
  minCommandID : float; maxCommandID : float;
  minAgentID : float; maxAgentID : float;
  minInvID : float; maxInvID : float
}.

(** 2^53-1 *)
Definition MAXFLOAT64 : float := 9007199254740991%float.

Definition ids_zero : IDs := mkIDs 0 0 0 0 0 0 0 0.

(** * Predicate blocks

    Every filter of a builder is the same Go statement:
<<
    if <guard> {
        if valctr > 0 { where += " AND " }
        where += fmt.Sprintf(<clause>, valctr+1, ...)
        vals = append(vals, <args>...)
        valctr += <slots>
        join<X> = true ...
    }
>>
    A [Block] records the guard, the clause template (a function of the first
    slot number), the appended values, the increment of [valctr] and the join
    flags the block sets; [field] names the parameter its guard tests. *)

Inductive JoinFlag := joinAction | joinAgent | joinCommand | joinInvestigator.

Definition JoinFlag_eqb (a b : JoinFlag) : bool :=
  match a, b with
  | joinAction, joinAction | joinAgent, joinAgent
  | joinCommand, joinCommand | joinInvestigator, joinInvestigator => true
  | _, _ => false
  end.

Inductive Field :=
  | FBefore | FAfter | FActionID | FActionName | FAgentID | FAgentName
  | FCommandID | FInvestigatorID | FInvestigatorName | FStatus
  | FThreatFamily | FFoundAnything.

Record Block := mkBlock {
  guard : bool;
  field : Field;
  clause : nat -> string;
  args : list value;
  slots : nat;
  sets : list JoinFlag
}.

(** The local variables of a builder: the text built so far ([query] in
    SearchCommands, [where] in the other three), [vals], [valctr] and the
    join flags set to true. *)
Record Locals := mkLocals {
  sql : string;
  vals : list value;
  valctr : nat;
  flags : list JoinFlag
}.

Definition exec_block (l : Locals) (b : Block) : Locals :=
  if guard b then
    let s := if Nat.ltb 0 (valctr l) then sql l ++ " AND " else sql l in
    mkLocals (s ++ clause b (valctr l + 1)) (vals l ++ args b)%list
             (valctr l + slots b) (flags l ++ sets b)%list
  else l.

Definition run_blocks (l : Locals) (bs : list Block) : Locals :=
  fold_left exec_block bs l.

Definition is_set (l : Locals) (f : JoinFlag) : bool :=
  existsb (JoinFlag_eqb f) (flags l).

Definition init_locals (s : string) : Locals := mkLocals s [] 0 [].

(** ** Clause templates *)

Arguments itoa : simpl never.

(** [<col> <= $%d ] *)
Definition le_clause (col : string) (n : nat) : string :=
  col ++ " <= $" ++ itoa n ++ " ".
(** [<col> >= $%d ] *)
Definition ge_clause (col : string) (n : nat) : string :=
  col ++ " >= $" ++ itoa n ++ " ".
(** [<col> >= $%d AND <col> <= $%d] *)
Definition range_clause (col : string) (n : nat) : string :=
  col ++ " >= $" ++ itoa n ++ " AND " ++ col ++ " <= $" ++ itoa (n + 1).
(** [<col> ILIKE $%d] *)
Definition ilike_clause (col : string) (n : nat) : string :=
  col ++ " ILIKE $" ++ itoa n.
(** [actions.threat#>>'{family}' ILIKE $%d ] *)
Definition threat_clause (n : nat) : string :=
  "actions.threat#>>'{family}' ILIKE $" ++ itoa n ++ " ".
(** The found-anything clause of SearchCommands (lines 252-256). *)
Definition foundanything_clause (n : nat) : string :=
  "commands.status = $" ++ itoa n ++ NL
  ++ TAB ++ TAB ++ TAB ++ "AND commands.id IN (" ++ TAB
  ++ "SELECT commands.id FROM commands, actions, json_array_elements(commands.results) as r" ++ NL
  ++ TAB ++ TAB ++ TAB ++ TAB ++ TAB ++ TAB ++ "WHERE commands.actionid=actions.id" ++ NL
  ++ TAB ++ TAB ++ TAB ++ TAB ++ TAB ++ TAB ++ "AND actions.id >= $" ++ itoa (n + 1)
  ++ " AND actions.id <= $" ++ itoa (n + 2) ++ NL
  ++ TAB ++ TAB ++ TAB ++ TAB ++ TAB ++ TAB ++ "AND r#>>'{foundanything}' = $" ++ itoa (n + 3) ++ ") ".

(** [fmt.Sprintf(` GROUP BY ... LIMIT $%d OFFSET $%d;`, ...)] tails. *)
Definition limit_offset (head : string) (k : nat) : string :=
  head ++ " LIMIT $" ++ itoa (k + 1) ++ " OFFSET $" ++ itoa (k + 2) ++ ";".

(** ** Join clauses (the literals of the four builders) *)

Definition join_commands_on_action : string :=
  "INNER JOIN commands ON ( commands.actionid = actions.id) ".
Definition join_commands_on_agent : string :=
  "INNER JOIN commands ON ( commands.agentid = agents.id) ".
Definition join_agents : string :=
  " INNER JOIN agents ON ( commands.agentid = agents.id ) ".
Definition join_actions_on_command : string :=
  " INNER JOIN actions ON ( commands.actionid = actions.id ) ".
Definition join_signatures_investigators : string :=
  " INNER JOIN signatures ON ( actions.id = signatures.actionid )" ++ NL
  ++ TAB ++ TAB ++ TAB
  ++ "INNER JOIN investigators ON ( signatures.investigatorid = investigators.id ) ".
Definition join_signatures_actions : string :=
  " INNER JOIN signatures ON ( signatures.investigatorid = investigators.id ) " ++ NL
  ++ TAB ++ TAB ++ TAB ++ "INNER JOIN actions ON ( actions.id = signatures.actionid ) ".

(** ** Fixed texts *)

Definition commands_select : string :=
  "SELECT commands.id, commands.status, commands.results, commands.starttime, commands.finishtime," ++ NL
  ++ TAB ++ TAB ++ TAB ++ "actions.id, actions.name, actions.target, actions.description, actions.threat," ++ NL
  ++ TAB ++ TAB ++ TAB ++ "actions.operations, actions.validfrom, actions.expireafter, actions.pgpsignatures," ++ NL
  ++ TAB ++ TAB ++ TAB ++ "actions.syntaxversion, agents.id, agents.name, agents.version, agents.tags, agents.environment" ++ NL
  ++ TAB ++ TAB ++ "FROM" ++ TAB ++ "commands" ++ NL
  ++ TAB ++ TAB ++ TAB ++ "INNER JOIN actions ON ( commands.actionid = actions.id)" ++ NL
  ++ TAB ++ TAB ++ TAB ++ "INNER JOIN signatures ON ( actions.id = signatures.actionid )" ++ NL
  ++ TAB ++ TAB ++ TAB ++ "INNER JOIN investigators ON ( signatures.investigatorid = investigators.id )" ++ NL
  ++ TAB ++ TAB ++ TAB ++ "INNER JOIN agents ON ( commands.agentid = agents.id )" ++ NL
  ++ TAB ++ TAB ++ "WHERE ".

Definition commands_tail : string :=
  " GROUP BY commands.id, actions.id, agents.id" ++ NL ++ TAB ++ TAB
  ++ "ORDER BY commands.starttime DESC".

Definition actions_columns : string :=
  "actions.id, actions.name, actions.target,  actions.description, actions.threat, actions.operations," ++ NL
  ++ TAB ++ TAB ++ "actions.validfrom, actions.expireafter, actions.starttime, actions.finishtime, actions.lastupdatetime," ++ NL
  ++ TAB ++ TAB ++ "actions.status, actions.pgpsignatures, actions.syntaxversion ".
Definition actions_tail : string :=
  " GROUP BY actions.id" ++ NL ++ TAB ++ TAB ++ "ORDER BY actions.validfrom DESC".

Definition agents_columns : string :=
  "agents.id, agents.name, agents.queueloc, agents.mode," ++ NL
  ++ TAB ++ TAB ++ "agents.version, agents.pid, agents.starttime, agents.destructiontime," ++ NL
  ++ TAB ++ TAB ++ "agents.heartbeattime, agents.status".
Definition agents_tail : string :=
  " GROUP BY agents.id" ++ NL ++ TAB ++ TAB ++ "ORDER BY agents.heartbeattime DESC".

Definition investigators_columns : string :=
  "investigators.id, investigators.name, investigators.pgpfingerprint," ++ NL
  ++ TAB ++ TAB ++ "investigators.status, investigators.createdat, investigators.lastmodified".
Definition investigators_tail : string :=
  " GROUP BY investigators.id" ++ NL ++ TAB ++ TAB ++ "ORDER BY investigators.id ASC".

(** [fmt.Sprintf(`SELECT %s FROM <table> %s WHERE %s<tail> LIMIT $%d OFFSET $%d;`,
    columns, join, where, valctr+1, valctr+2)] *)
Definition select_query (columns table join where_ tail : string) (k : nat) : string :=
  "SELECT " ++ columns ++ " FROM " ++ table ++ " " ++ join ++ " WHERE " ++ where_
  ++ limit_offset tail k.

(** The time-window guards; [now1] and [now2] are the two readings of
    [time.Now()] each builder makes. *)
Definition before_guard (p : SearchParameters) (now1 : Time) : bool :=
  Before_ (Before p) (Add now1 (defaultSearchPeriod - Hour)%Z).
Definition after_guard (p : SearchParameters) (now2 : Time) : bool :=
  After_ (After p) (Add now2 (- (defaultSearchPeriod - Hour))%Z).

Section Searches.

(** [t.Format(time.RFC3339)] *)
Variable Format_RFC3339 : Time -> string.
(** [strconv.ParseFloat(s, 64)]: the value and the error, if any. *)
Variable ParseFloat : string -> float * option string.
(** [uint64(f)] for a float64 [f]. *)
Variable uint64_of_float64 : float -> Z.
(** [mig.StatusSuccess] *)
Variable StatusSuccess : string.
(** The domain records of package mig. *)
Variables Command Action Agent Investigator : Type.

(** ** [func (p SearchParameters) String() (query string)] *)
Definition SearchParameters_String (p : SearchParameters) : string :=
  let query := "type=" ++ Type_ p ++ "&after=" ++ Format_RFC3339 (After p)
               ++ "&before=" ++ Format_RFC3339 (Before p) in
  let query := if neq (AgentName p) PCT then query ++ "&agentname=" ++ AgentName p else query in
  let query := if neq (AgentID p) INF then query ++ "&agentid=" ++ AgentID p else query in
  let query := if neq (ActionName p) PCT then query ++ "&actionname=" ++ ActionName p else query in
  let query := if neq (ActionID p) INF then query ++ "&actionid=" ++ ActionID p else query in
  let query := if neq (CommandID p) INF then query ++ "&commandid=" ++ CommandID p else query in
  let query := if neq (InvestigatorID p) INF
               then query ++ "&investigatorid=" ++ InvestigatorID p else query in
  let query := if neq (InvestigatorName p) PCT
               then query ++ "&investigatorname=" ++ InvestigatorName p else query in
  let query := if neq (ThreatFamily p) PCT then query ++ "&threatfamily=" ++ ThreatFamily p else query in
  let query := if neq (Status p) PCT then query ++ "&status=" ++ Status p else query in
  let query := query ++ "&limit=" ++ format_f0 (Limit p) in
  let query := if negb (PrimFloat.eqb (Offset p) 0%float)
               then query ++ "&offset=" ++ format_f0 (Offset p) else query in
  query.

(** ** [func makeIDsFromParams(p SearchParameters) (ids IDs, err error)]

    One identifier: [min] is the parsed value (also when ParseFloat fails),
    [max] stays MAXFLOAT64 when it fails. *)
Definition resolve (s : string) : float * float * option string :=
  if neq s INF then
    let '(v, err) := ParseFloat s in
    match err with
    | Some e => (v, MAXFLOAT64, Some e)
    | None => (v, v, None)
    end
  else (0%float, MAXFLOAT64, None).

Definition makeIDsFromParams (p : SearchParameters) : IDs * option string :=
  let '(a1, a2, ea) := resolve (ActionID p) in
  let ids := {| minActionID := a1; maxActionID := a2;
                minCommandID := 0; maxCommandID := 0; minAgentID := 0;
                maxAgentID := 0; minInvID := 0; maxInvID := 0 |} in
  match ea with Some e => (ids, Some e) | None =>
  let '(c1, c2, ec) := resolve (CommandID p) in
  let ids := {| minActionID := a1; maxActionID := a2;
                minCommandID := c1; maxCommandID := c2; minAgentID := 0;
                maxAgentID := 0; minInvID := 0; maxInvID := 0 |} in
  match ec with Some e => (ids, Some e) | None =>
  let '(g1, g2, eg) := resolve (AgentID p) in
  let ids := {| minActionID := a1; maxActionID := a2;
                minCommandID := c1; maxCommandID := c2; minAgentID := g1;
                maxAgentID := g2; minInvID := 0; maxInvID := 0 |} in
  match eg with Some e => (ids, Some e) | None =>
  let '(i1, i2, ei) := resolve (InvestigatorID p) in
  let ids := {| minActionID := a1; maxActionID := a2;
                minCommandID := c1; maxCommandID := c2; minAgentID := g1;
                maxAgentID := g2; minInvID := i1; maxInvID := i2 |} in
  (ids, ei)
  end end end.

(** ** SearchCommands, lines 156-271 *)
Definition commands_blocks (p : SearchParameters) (ids : IDs) (doFoundAnything : bool)
    (now1 now2 : Time) : list Block := [
  mkBlock (before_guard p now1) FBefore (le_clause "commands.starttime")
    [VTime (Before p)] 1 [];
  mkBlock (after_guard p now2) FAfter (ge_clause "commands.starttime")
    [VTime (After p)] 1 [];
  mkBlock (neq (CommandID p) INF) FCommandID (range_clause "commands.id")
    [VFloat (minCommandID ids); VFloat (maxCommandID ids)] 2 [];
  mkBlock (neq (Status p) PCT) FStatus (ilike_clause "commands.status")
    [VString (Status p)] 1 [];
  mkBlock (neq (ActionID p) INF) FActionID (range_clause "actions.id")
    [VFloat (minActionID ids); VFloat (maxActionID ids)] 2 [];
  mkBlock (neq (ActionName p) PCT) FActionName (ilike_clause "actions.name")
    [VString (ActionName p)] 1 [];
  mkBlock (neq (InvestigatorID p) INF) FInvestigatorID (range_clause "investigators.id")
    [VFloat (minInvID ids); VFloat (maxInvID ids)] 2 [];
  mkBlock (neq (InvestigatorName p) PCT) FInvestigatorName (ilike_clause "investigators.name")
    [VString (InvestigatorName p)] 1 [];
  mkBlock (neq (AgentID p) INF) FAgentID (range_clause "agents.id")
    [VFloat (minAgentID ids); VFloat (maxAgentID ids)] 2 [];
  mkBlock (neq (AgentName p) PCT) FAgentName (ilike_clause "agents.name")
    [VString (AgentName p)] 1 [];
  mkBlock doFoundAnything FFoundAnything foundanything_clause
    [VString StatusSuccess; VFloat (minActionID ids); VFloat (maxActionID ids);
     VBool (FoundAnything p)] 4 [];
  mkBlock (neq (ThreatFamily p) PCT) FThreatFamily threat_clause
    [VString (ThreatFamily p)] 1 []
].

Definition commands_query (p : SearchParameters) (ids : IDs) (doFoundAnything : bool)
    (now1 now2 : Time) : string * list value :=
  let l := run_blocks (init_locals commands_select)
                      (commands_blocks p ids doFoundAnything now1 now2) in
  (sql l ++ limit_offset commands_tail (valctr l),
   (vals l ++ [VUint64 (uint64_of_float64 (Limit p)); VUint64 (uint64_of_float64 (Offset p))])%list).

(** ** SearchActions, lines 363-478 *)
Definition actions_blocks (p : SearchParameters) (ids : IDs) (now1 now2 : Time) : list Block := [
  mkBlock (before_guard p now1) FBefore (le_clause "actions.expireafter")
    [VTime (Before p)] 1 [];
  mkBlock (after_guard p now2) FAfter (ge_clause "actions.validfrom")
    [VTime (After p)] 1 [];
  mkBlock (neq (Status p) PCT) FStatus (ilike_clause "action.status")
    [VString (Status p)] 1 [];
  mkBlock (neq (ActionID p) INF) FActionID (range_clause "actions.id")
    [VFloat (minActionID ids); VFloat (maxActionID ids)] 2 [];
  mkBlock (neq (ActionName p) PCT) FActionName (ilike_clause "actions.name")
    [VString (ActionName p)] 1 [];
  mkBlock (neq (InvestigatorID p) INF) FInvestigatorID (range_clause "investigators.id")
    [VFloat (minInvID ids); VFloat (maxInvID ids)] 2 [joinInvestigator];
  mkBlock (neq (InvestigatorName p) PCT) FInvestigatorName (ilike_clause "investigators.name")
    [VString (InvestigatorName p)] 1 [joinInvestigator];
  mkBlock (neq (AgentID p) INF) FAgentID (range_clause "agents.id")
    [VFloat (minAgentID ids); VFloat (maxAgentID ids)] 2 [joinAgent; joinCommand];
  mkBlock (neq (AgentName p) PCT) FAgentName (ilike_clause "agents.name")
    [VString (AgentName p)] 1 [joinAgent; joinCommand];
  mkBlock (neq (CommandID p) INF) FCommandID (range_clause "commands.id")
    [VFloat (minCommandID ids); VFloat (maxCommandID ids)] 2 [joinCommand]
].

(** The ThreatFamily block comes after the join clause is assembled. *)
Definition threat_block (p : SearchParameters) : Block :=
  mkBlock (neq (ThreatFamily p) PCT) FThreatFamily threat_clause
    [VString (ThreatFamily p)] 1 [].

Definition actions_join (l : Locals) : string :=
  let join := "" in
  let join := if is_set l joinCommand then join ++ join_commands_on_action else join in
  let join := if is_set l joinAgent then join ++ join_agents else join in
  let join := if is_set l joinInvestigator then join ++ join_signatures_investigators else join in
  join.

Definition actions_query (p : SearchParameters) (ids : IDs) (now1 now2 : Time)
    : string * list value :=
  let l := run_blocks (init_locals "") (actions_blocks p ids now1 now2) in
  let join := actions_join l in
  let l := run_blocks l [threat_block p] in
  (select_query actions_columns "actions" join (sql l) actions_tail (valctr l),
   (vals l ++ [VUint64 (uint64_of_float64 (Limit p)); VUint64 (uint64_of_float64 (Offset p))])%list).

(** ** SearchAgents, lines 555-676 *)
Definition agents_blocks (p : SearchParameters) (ids : IDs) (now1 now2 : Time) : list Block := [
  mkBlock (before_guard p now1) FBefore (le_clause "agents.heartbeattime")
    [VTime (Before p)] 1 [];
  mkBlock (after_guard p now2) FAfter (ge_clause "agents.heartbeattime")
    [VTime (After p)] 1 [];
  mkBlock (neq (AgentID p) INF) FAgentID (range_clause "agents.id")
    [VFloat (minAgentID ids); VFloat (maxAgentID ids)] 2 [];
  mkBlock (neq (AgentName p) PCT) FAgentName (ilike_clause "agents.name")
    [VString (AgentName p)] 1 [];
  mkBlock (neq (Status p) PCT) FStatus (ilike_clause "agents.status")
    [VString (Status p)] 1 [];
  mkBlock (neq (ActionID p) INF) FActionID (range_clause "actions.id")
    [VFloat (minActionID ids); VFloat (maxActionID ids)] 2 [joinAction; joinCommand];
  mkBlock (neq (ActionName p) PCT) FActionName (ilike_clause "actions.name")
    [VString (ActionName p)] 1 [joinAction; joinCommand];
  mkBlock (neq (ThreatFamily p) PCT) FThreatFamily threat_clause
    [VString (ThreatFamily p)] 1 [joinAction; joinCommand];
  mkBlock (neq (InvestigatorID p) INF) FInvestigatorID (range_clause "investigators.id")
    [VFloat (minInvID ids); VFloat (maxInvID ids)] 2
    [joinInvestigator; joinCommand; joinAction];
  mkBlock (neq (InvestigatorName p) PCT) FInvestigatorName (ilike_clause "investigators.name")
    [VString (InvestigatorName p)] 1 [joinInvestigator; joinCommand; joinAction];
  mkBlock (neq (CommandID p) INF) FCommandID (range_clause "commands.id")
    [VFloat (minCommandID ids); VFloat (maxCommandID ids)] 2 [joinCommand]
].

Definition agents_join (l : Locals) : string :=
  let join := "" in
  let join := if is_set l joinCommand then join ++ join_commands_on_agent else join in
  let join := if is_set l joinAction then join ++ join_actions_on_command else join in
  let join := if is_set l joinInvestigator then join ++ join_signatures_investigators else join in
  join.

Definition agents_query (p : SearchParameters) (ids : IDs) (now1 now2 : Time)
    : string * list value :=
  let l := run_blocks (init_locals "") (agents_blocks p ids now1 now2) in
  let join := agents_join l in
  (select_query agents_columns "agents" join (sql l) agents_tail (valctr l),
   (vals l ++ [VUint64 (uint64_of_float64 (Limit p)); VUint64 (uint64_of_float64 (Offset p))])%list).

(** ** SearchInvestigators, lines 722-840 *)
Definition investigators_blocks (p : SearchParameters) (ids : IDs) (now1 now2 : Time)
    : list Block := [
  mkBlock (before_guard p now1) FBefore (le_clause "investigators.lastmodified")
    [VTime (Before p)] 1 [];
  mkBlock (after_guard p now2) FAfter (ge_clause "investigators.lastmodified")
    [VTime (After p)] 1 [];
  mkBlock (neq (InvestigatorID p) INF) FInvestigatorID (range_clause "investigators.id")
    [VFloat (minInvID ids); VFloat (maxInvID ids)] 2 [];
  mkBlock (neq (InvestigatorName p) PCT) FInvestigatorName (ilike_clause "investigators.name")
    [VString (InvestigatorName p)] 1 [];
  mkBlock (neq (Status p) PCT) FStatus (ilike_clause "investigators.status")
    [VString (Status p)] 1 [];
  mkBlock (neq (ActionID p) INF) FActionID (range_clause "actions.id")
    [VFloat (minActionID ids); VFloat (maxActionID ids)] 2 [joinAction];
  mkBlock (neq (ActionName p) PCT) FActionName (ilike_clause "actions.name")
    [VString (ActionName p)] 1 [joinAction];
  mkBlock (neq (ThreatFamily p) PCT) FThreatFamily threat_clause
    [VString (ThreatFamily p)] 1 [joinAction];
  mkBlock (neq (CommandID p) INF) FCommandID (range_clause "commands.id")
    [VFloat (minCommandID ids); VFloat (maxCommandID ids)] 2 [joinCommand; joinAction];
  mkBlock (neq (AgentID p) INF) FAgentID (range_clause "agents.id")
    [VFloat (minAgentID ids); VFloat (maxAgentID ids)] 2 [joinCommand; joinAction; joinAgent];
  mkBlock (neq (AgentName p) PCT) FAgentName (ilike_clause "agents.name")
    [VString (AgentName p)] 1 [joinCommand; joinAction; joinAgent]
].

Definition investigators_join (l : Locals) : string :=
  let join := "" in
  let join := if is_set l joinAction then join ++ join_signatures_actions else join in
  let join := if is_set l joinCommand then join ++ join_commands_on_action else join in
  let join := if is_set l joinAgent then join ++ join_agents else join in
  join.

Definition investigators_query (p : SearchParameters) (ids : IDs) (now1 now2 : Time)
    : string * list value :=
  let l := run_blocks (init_locals "") (investigators_blocks p ids now1 now2) in
  let join := investigators_join l in
  (select_query investigators_columns "investigators" join (sql l) investigators_tail (valctr l),
   (vals l ++ [VUint64 (uint64_of_float64 (Limit p)); VUint64 (uint64_of_float64 (Offset p))])%list).

(** ** The four search operations up to the store

    A search either returns at once (its collection and error), or goes on
    to [db.c.Prepare(query)] and [stmt.Query(vals...)] with a query text and
    its values; what the store does from there is not modelled. *)
Inductive Outcome (A : Type) :=
  | Returned (records : list A) (err : string)
  | Issued (query : string) (params : list value).
Arguments Returned {A}.
Arguments Issued {A}.

Definition SearchCommands (p : SearchParameters) (doFoundAnything : bool) (now1 now2 : Time)
    : Outcome Command :=
  match makeIDsFromParams p with
  | (_, Some e) => Returned [] e
  | (ids, None) => let '(q, vs) := commands_query p ids doFoundAnything now1 now2 in Issued q vs
  end.

Definition SearchActions (p : SearchParameters) (now1 now2 : Time) : Outcome Action :=
  match makeIDsFromParams p with
  | (_, Some e) => Returned [] e
  | (ids, None) => let '(q, vs) := actions_query p ids now1 now2 in Issued q vs
  end.

Definition SearchAgents (p : SearchParameters) (now1 now2 : Time) : Outcome Agent :=
  match makeIDsFromParams p with
  | (_, Some e) => Returned [] e
  | (ids, None) => let '(q, vs) := agents_query p ids now1 now2 in Issued q vs
  end.

Definition SearchInvestigators (p : SearchParameters) (now1 now2 : Time) : Outcome Investigator :=
  match makeIDsFromParams p with
  | (_, Some e) => Returned [] e
  | (ids, None) => let '(q, vs) := investigators_query p ids now1 now2 in Issued q vs
  end.

End Searches.

Arguments Returned {A}.
Arguments Issued {A}.

(** * Reading the rows of a search

    Once its query is built, each search runs the same code:
<<
    stmt, err := db.c.Prepare(query)
    if err != nil { err = fmt.Errorf("Error while preparing search statement: '%v' in '%s'", err, query); return }
    rows, err = stmt.Query(vals...)
    if err != nil { err = fmt.Errorf("Error while finding <entity>: '%v'", err); return }
    for rows.Next() {
        <scan one row and complete the record; on an error, wrap it and return>
        <records> = append(<records>, <record>)
    }
    if err := rows.Err(); err != nil {
        err = fmt.Errorf("Failed to complete database query: '%v'", err)
    }
    return
>>
    The store, the row scanner, json.Unmarshal and the two lookups of the
    DB type (GetActionCounters, InvestigatorByActionID) are parameters:
    [Prepare q] is the error of [db.c.Prepare(q)]; [Query q vs] gives the rows
    [rows.Next()] yields with the error [rows.Err()] reports once they are
    exhausted, and the error of [stmt.Query]. The deferred [Close] calls
    are not modelled. *)

Definition bytes := list Byte.byte.

(** [fmt.Errorf("<msg>: '%v'", err)] *)
Definition wrap (msg e : string) : string := msg ++ ": '" ++ e ++ "'".

(** One fallible statement of the row loop:
    [x, err = f(...); if err != nil { err = fmt.Errorf("<msg>: '%v'", err); return }]. *)
Definition try {A B : Type} (msg : string) (r : A * option string) (k : A -> B + string)
    : B + string :=
  match r with
  | (_, Some e) => inr (wrap msg e)
  | (a, None) => k a
  end.

(** The fields json.Unmarshal decodes into, in a command row ([&cmd.<...>])
    and in an action row ([&a.<...>]). *)
Inductive CommandDest :=
  | CmdActionThreat | CmdResults | CmdActionDescription | CmdActionOperations
  | CmdActionPGPSignatures | CmdAgentTags | CmdAgentEnv.
Inductive ActionDest := ActThreat | ActDescription | ActOperations | ActPGPSignatures.

Section Rows.

Variable ParseFloat : string -> float * option string.
Variable uint64_of_float64 : float -> Z.
Variable StatusSuccess : string.
Variables Command Action Agent Investigator : Type.

(** A row of a result set, and the store. *)
Variable Row : Type.
Variable Prepare : string -> option string.
Variable Query : string -> list value -> (list Row * option string) * option string.

(** [rows.Scan(...)]: the record with its scanned columns, the raw json
    columns, and the error. For a command the raw columns are
    [jRes, jDesc, jThreat, jOps, jSig, jAgtTags, jAgtEnv]; for an action
    [jDesc, jThreat, jOps, jSig]. *)
Variable ScanCommand :
  Row -> (Command * (bytes * bytes * bytes * bytes * bytes * bytes * bytes)) * option string.
Variable ScanAction : Row -> (Action * (bytes * bytes * bytes * bytes)) * option string.
Variable ScanAgent : Row -> Agent * option string.
Variable ScanInvestigator : Row -> Investigator * option string.

(** [json.Unmarshal(j, &r.<dest>)]: the updated record and the error. *)
Variable UnmarshalCommand : bytes -> CommandDest -> Command -> Command * option string.
Variable UnmarshalAction : bytes -> ActionDest -> Action -> Action * option string.

(** [a.ID], [cmd.Action], and the assignments to [a.Counters],
    [a.Investigators] and [cmd.Action]. *)
Variables (ID ActionCounters : Type).
Variable Action_ID : Action -> ID.
Variable Command_Action : Command -> Action.
Variable set_Counters : Action -> ActionCounters -> Action.
Variable set_Investigators : Action -> list Investigator -> Action.
Variable set_Action : Command -> Action -> Command.

(** [db.GetActionCounters(id)] and [db.InvestigatorByActionID(id)]. *)
Variable GetActionCounters : ID -> ActionCounters * option string.
Variable InvestigatorByActionID : ID -> list Investigator * option string.

(** The body of the row loop of SearchCommands (lines 290-345). *)
Definition command_of_row (r : Row) : Command + string :=
  try "Failed to retrieve command" (ScanCommand r)
    (fun '(cmd, (jRes, jDesc, jThreat, jOps, jSig, jAgtTags, jAgtEnv)) =>
  try "Failed to unmarshal action threat" (UnmarshalCommand jThreat CmdActionThreat cmd)
    (fun cmd =>
  try "Failed to unmarshal command results" (UnmarshalCommand jRes CmdResults cmd)
    (fun cmd =>
  try "Failed to unmarshal action description" (UnmarshalCommand jDesc CmdActionDescription cmd)
    (fun cmd =>
  try "Failed to unmarshal action operations" (UnmarshalCommand jOps CmdActionOperations cmd)
    (fun cmd =>
  try "Failed to unmarshal action signatures" (UnmarshalCommand jSig CmdActionPGPSignatures cmd)
    (fun cmd =>
  try "Failed to unmarshal agent tags" (UnmarshalCommand jAgtTags CmdAgentTags cmd)
    (fun cmd =>
  try "Failed to unmarshal agent environment" (UnmarshalCommand jAgtEnv CmdAgentEnv cmd)
    (fun cmd =>
  try "Failed to retrieve action counters" (GetActionCounters (Action_ID (Command_Action cmd)))
    (fun c =>
  let cmd := set_Action cmd (set_Counters (Command_Action cmd) c) in
  try "Failed to retrieve action investigators"
    (InvestigatorByActionID (Action_ID (Command_Action cmd)))
    (fun invs =>
  let cmd := set_Action cmd (set_Investigators (Command_Action cmd) invs) in
  inl cmd)))))))))).

(** The body of the row loop of SearchActions (lines 497-537). *)
Definition action_of_row (r : Row) : Action + string :=
  try "Error while retrieving action" (ScanAction r)
    (fun '(a, (jDesc, jThreat, jOps, jSig)) =>
  try "Failed to unmarshal action threat" (UnmarshalAction jThreat ActThreat a)
    (fun a =>
  try "Failed to unmarshal action description" (UnmarshalAction jDesc ActDescription a)
    (fun a =>
  try "Failed to unmarshal action operations" (UnmarshalAction jOps ActOperations a)
    (fun a =>
  try "Failed to unmarshal action signatures" (UnmarshalAction jSig ActPGPSignatures a)
    (fun a =>
  try "Failed to retrieve action counters" (GetActionCounters (Action_ID a))
    (fun c =>
  let a := set_Counters a c in
  try "Failed to retrieve action investigators" (InvestigatorByActionID (Action_ID a))
    (fun invs =>
  let a := set_Investigators a invs in
  inl a))))))).

(** The body of the row loop of SearchAgents (lines 695-703). *)
Definition agent_of_row (r : Row) : Agent + string :=
  try "Failed to retrieve agent data" (ScanAgent r) (fun agent => inl agent).

(** The body of the row loop of SearchInvestigators (lines 859-865). *)
Definition investigator_of_row (r : Row) : Investigator + string :=
  try "Failed to retrieve investigator data" (ScanInvestigator r) (fun inv => inl inv).

(** [for rows.Next() { ...; records = append(records, r) }]: [Some e] when
    the loop returns from inside, with the records appended so far. *)
Fixpoint next_rows {A : Type} (of_row : Row -> A + string) (records : list A) (rows : list Row)
    : list A * option string :=
  match rows with
  | [] => (records, None)
  | r :: rows =>
      match of_row r with
      | inr e => (records, Some e)
      | inl x => next_rows of_row (records ++ [x]) rows
      end
  end.

(** From [db.c.Prepare(query)] to the final [return]; [entity] is the word of
    the [stmt.Query] error message. *)
Definition fetch {A : Type} (entity : string) (of_row : Row -> A + string)
    (query : string) (vals : list value) : list A * option string :=
  match Prepare query with
  | Some e =>
      ([], Some ("Error while preparing search statement: '" ++ e ++ "' in '" ++ query ++ "'"))
  | None =>
      match Query query vals with
      | (_, Some e) => ([], Some (wrap ("Error while finding " ++ entity) e))
      | ((rows, rows_err), None) =>
          match next_rows of_row [] rows with
          | (records, Some e) => (records, Some e)
          | (records, None) =>
              (* [if err := rows.Err(); err != nil { err = fmt.Errorf(...) }]
                 declares an [err] of its own: the wrapped error is assigned
                 to it, and the named result [err] stays nil. *)
              let _ := match rows_err with
                       | Some e => Some (wrap "Failed to complete database query" e)
                       | None => None
                       end in
              (records, None)
          end
      end
  end.

(** ** The four searches, from the parameters to the returned records and error *)

Definition db_SearchCommands (p : SearchParameters) (doFoundAnything : bool) (now1 now2 : Time)
    : list Command * option string :=
  match SearchCommands ParseFloat uint64_of_float64 StatusSuccess Command p doFoundAnything now1 now2 with
  | Returned records e => (records, Some e)
  | Issued q vs => fetch "commands" command_of_row q vs
  end.

Definition db_SearchActions (p : SearchParameters) (now1 now2 : Time)
    : list Action * option string :=
  match SearchActions ParseFloat uint64_of_float64 Action p now1 now2 with
  | Returned records e => (records, Some e)
  | Issued q vs => fetch "actions" action_of_row q vs
  end.

Definition db_SearchAgents (p : SearchParameters) (now1 now2 : Time)
    : list Agent * option string :=
  match SearchAgents ParseFloat uint64_of_float64 Agent p now1 now2 with
  | Returned records e => (records, Some e)
  | Issued q vs => fetch "agents" agent_of_row q vs
  end.

Definition db_SearchInvestigators (p : SearchParameters) (now1 now2 : Time)
    : list Investigator * option string :=
  match SearchInvestigators ParseFloat uint64_of_float64 Investigator p now1 now2 with
  | Returned records e => (records, Some e)
  | Issued q vs => fetch "investigators" investigator_of_row q vs
  end.

End Rows.

(** * Observations of a query text *)

(** ** Positional placeholders: the numbers of the [$<digits>] tokens, in
    order of appearance. *)
Inductive scan_state := Out | Dollar | InNum (n : nat).

(** The position of [c] in [s], counted from [i]. *)
Fixpoint index_from (c : ascii) (s : string) (i : nat) : option nat :=
  match s with
  | EmptyString => None
  | String d s' => if Ascii.eqb c d then Some i else index_from c s' (S i)
  end.

(** The value of a decimal digit. *)
Definition digit_val (c : ascii) : option nat := index_from c "0123456789" 0.
Definition is_digit (c : ascii) : bool :=
  match digit_val c with Some _ => true | None => false end.

Definition flush (st : scan_state) : list nat :=
  match st with InNum n => [n] | _ => [] end.
Definition next_state (c : ascii) : scan_state :=
  if Ascii.eqb c "$" then Dollar else Out.
Definition step_digit (st : scan_state) (c : ascii) : scan_state :=
  match st with
  | Out => Out
  | Dollar => InNum (match digit_val c with Some d => d | None => 0 end)
  | InNum n => InNum (10 * n + match digit_val c with Some d => d | None => 0 end)
  end.

Fixpoint scan (st : scan_state) (s : string) : list nat :=
  match s with
  | EmptyString => flush st
  | String c s' =>
      if is_digit c then scan (step_digit st c) s'
      else (flush st ++ scan (next_state c) s')%list
  end.

Definition placeholders (s : string) : list nat := scan Out s.

(** The placeholders a prefix emits and the state it ends in. *)
Fixpoint run (st : scan_state) (s : string) : list nat * scan_state :=
  match s with
  | EmptyString => ([], st)
  | String c s' =>
      if is_digit c then run (step_digit st c) s'
      else let '(ns, st') := run (next_state c) s' in ((flush st ++ ns)%list, st')
  end.

(** The string is empty or does not start with a digit. *)
Definition nd_start (s : string) : bool :=
  match s with EmptyString => true | String c _ => negb (is_digit c) end.

(** ** Joined tables: the word after each [JOIN ] keyword. *)
Fixpoint after_prefix (pre s : string) : option string :=
  match pre, s with
  | EmptyString, _ => Some s
  | String a pre', String b s' => if Ascii.eqb a b then after_prefix pre' s' else None
  | _, _ => None
  end.

Fixpoint word (s : string) : string :=
  match s with
  | EmptyString => EmptyString
  | String c s' => if Ascii.eqb c " " then EmptyString else String c (word s')
  end.

Fixpoint joined_tables (s : string) : list string :=
  match s with
  | EmptyString => []
  | String c s' =>
      match after_prefix "JOIN " s with
      | Some r => word r :: joined_tables s'
      | None => joined_tables s'
      end
  end.

(** No letter J: such a text holds no JOIN. *)
Fixpoint jfree (s : string) : bool :=
  match s with
  | EmptyString => true
  | String c s' => negb (Ascii.eqb c "J") && jfree s'
  end.

Definition contains (needle hay : string) : Prop :=
  exists x y, hay = x ++ needle ++ y.

(** The leftmost decomposition [x ++ needle ++ y] of a text. *)
Fixpoint find_split (needle s : string) : option (string * string) :=
  match after_prefix needle s with
  | Some y => Some (EmptyString, y)
  | None =>
      match s with
      | EmptyString => None
      | String c s' =>
          match find_split needle s' with
          | Some (x, y) => Some (String c x, y)
          | None => None
          end
      end
  end.

(** ** The blocks whose guard holds, and the slots and values of each. *)
Definition active (bs : list Block) : list Block := filter guard bs.

Fixpoint layout (start : nat) (bs : list Block) : list (list nat * list value) :=
  match bs with
  | [] => []
  | b :: bs' =>
      if guard b then (placeholders (clause b start), args b) :: layout (start + slots b) bs'
      else layout start bs'
  end.

(** A query text and its values use the slots $1 .. $N in order: the
    clauses of the active blocks, in order, carry consecutive slots from $1,
    each with as many values as slots, and the last two slots are bound to
    [lim] and [off]. *)
Definition consecutive_slots (q : string) (vs : list value) (bs : list Block)
    (lim off : value) : Prop :=
  let L := layout 1 bs in
  placeholders q = seq 1 (length vs)
  /\ vs = (concat (map snd L) ++ [lim; off])%list
  /\ concat (map fst L) = seq 1 (length vs - 2)
  /\ Forall (fun x => length (fst x) = length (snd x)) L.

(** A filter field at its "unconstrained" sentinel. *)
Definition at_sentinel (p : SearchParameters) (f : Field) : bool :=
  match f with
  | FActionID => String.eqb (ActionID p) INF
  | FAgentID => String.eqb (AgentID p) INF
  | FCommandID => String.eqb (CommandID p) INF
  | FInvestigatorID => String.eqb (InvestigatorID p) INF
  | FActionName => String.eqb (ActionName p) PCT
  | FAgentName => String.eqb (AgentName p) PCT
  | FInvestigatorName => String.eqb (InvestigatorName p) PCT
  | FThreatFamily => String.eqb (ThreatFamily p) PCT
  | FStatus => String.eqb (Status p) PCT
  | FBefore | FAfter | FFoundAnything => false
  end.

(** * The join-inference rules of the specification (section 4.3)

    Each join names the tables it adds; the lists are in the final order the
    specification gives, one entry per join flag. *)
Inductive SpecJoin :=
  | SJCommands | SJAgents | SJActions | SJSignaturesInvestigators | SJSignaturesActions.

Definition spec_join_tables (j : SpecJoin) : list string :=
  match j with
  | SJCommands => ["commands"]
  | SJAgents => ["agents"]
  | SJActions => ["actions"]
  | SJSignaturesInvestigators => ["signatures"; "investigators"]
  | SJSignaturesActions => ["signatures"; "actions"]
  end.

Definition is_filter_set (p : SearchParameters) (f : Field) : bool := negb (at_sentinel p f).

(** Actions: AgentID|AgentName => joinAgent, joinCommand; CommandID =>
    joinCommand; InvestigatorID|InvestigatorName => joinInvestigator. *)
Definition spec_actions_joins (p : SearchParameters) : list SpecJoin :=
  let jAgent := is_filter_set p FAgentID || is_filter_set p FAgentName in
  let jCommand := jAgent || is_filter_set p FCommandID in
  let jInv := is_filter_set p FInvestigatorID || is_filter_set p FInvestigatorName in
  ((if jCommand then [SJCommands] else []) ++ (if jAgent then [SJAgents] else [])
   ++ (if jInv then [SJSignaturesInvestigators] else []))%list.

(** Agents: ActionID|ActionName|ThreatFamily => joinAction, joinCommand;
    InvestigatorID|InvestigatorName => joinInvestigator, joinCommand,
    joinAction; CommandID => joinCommand. *)
Definition spec_agents_joins (p : SearchParameters) : list SpecJoin :=
  let jInv := is_filter_set p FInvestigatorID || is_filter_set p FInvestigatorName in
  let jAction := is_filter_set p FActionID || is_filter_set p FActionName
                 || is_filter_set p FThreatFamily || jInv in
  let jCommand := jAction || is_filter_set p FCommandID in
  ((if jCommand then [SJCommands] else []) ++ (if jAction then [SJActions] else [])
   ++ (if jInv then [SJSignaturesInvestigators] else []))%list.

(** Investigators: ActionID|ActionName|ThreatFamily => joinAction;
    CommandID => joinCommand, joinAction; AgentID|AgentName => joinCommand,
    joinAction, joinAgent. *)
Definition spec_investigators_joins (p : SearchParameters) : list SpecJoin :=
  let jAgent := is_filter_set p FAgentID || is_filter_set p FAgentName in
  let jCommand := is_filter_set p FCommandID || jAgent in
  let jAction := is_filter_set p FActionID || is_filter_set p FActionName
                 || is_filter_set p FThreatFamily || jCommand in
  ((if jAction then [SJSignaturesActions] else []) ++ (if jCommand then [SJCommands] else [])
   ++ (if jAgent then [SJAgents] else []))%list.

(** Commands: actions, signatures, investigators and agents, always. *)
Definition spec_commands_joins : list SpecJoin :=
  [SJActions; SJSignaturesInvestigators; SJAgents].

Definition tables_of (js : list SpecJoin) : list string := flat_map spec_join_tables js.

(** [p] with Report and Target replaced. *)
Definition with_report_target (p : SearchParameters) (r t : string) : SearchParameters :=
  {| ActionID := ActionID p; ActionName := ActionName p; After := After p;
     AgentID := AgentID p; AgentName := AgentName p; Before := Before p;
     CommandID := CommandID p; FoundAnything := FoundAnything p;
     InvestigatorID := InvestigatorID p; InvestigatorName := InvestigatorName p;
     Limit := Limit p; Offset := Offset p; Report := r; Status := Status p;
     Target := t; ThreatFamily := ThreatFamily p; Type_ := Type_ p |}.

(** [p] with Type replaced. *)
Definition with_type (p : SearchParameters) (ty : string) : SearchParameters :=
  {| ActionID := ActionID p; ActionName := ActionName p; After := After p;
     AgentID := AgentID p; AgentName := AgentName p; Before := Before p;
     CommandID := CommandID p; FoundAnything := FoundAnything p;
     InvestigatorID := InvestigatorID p; InvestigatorName := InvestigatorName p;
     Limit := Limit p; Offset := Offset p; Report := Report p; Status := Status p;
     Target := Target p; ThreatFamily := ThreatFamily p; Type_ := ty |}.

(** [p] with FoundAnything replaced. *)
Definition with_foundanything (p : SearchParameters) (b : bool) : SearchParameters :=
  {| ActionID := ActionID p; ActionName := ActionName p; After := After p;
     AgentID := AgentID p; AgentName := AgentName p; Before := Before p;
     CommandID := CommandID p; FoundAnything := b;
     InvestigatorID := InvestigatorID p; InvestigatorName := InvestigatorName p;
     Limit := Limit p; Offset := Offset p; Report := Report p; Status := Status p;
     Target := Target p; ThreatFamily := ThreatFamily p; Type_ := Type_ p |}.

(** The first error of a sequence of results. *)
Fixpoint first_error (es : list (option string)) : option string :=
  match es with
  | [] => None
  | Some e :: _ => Some e
  | None :: es => first_error es
  end.

(** * Auxiliary predicates of the proofs *)

Fixpoint has_space (s : string) : bool :=
  match s with
  | EmptyString => false
  | String c s' => Ascii.eqb c " " || has_space s'
  end.

(** Every [J] of the text starts a [JOIN ] whose table name ends, with a
    space, inside the text. *)
Fixpoint jclosed (s : string) : bool :=
  match s with
  | EmptyString => true
  | String c s' =>
      (if Ascii.eqb c "J" then
         match after_prefix "JOIN " s with Some r => has_space r | None => false end
       else true) && jclosed s'
  end.

(** A column name usable in the clause templates. *)
Definition col_okb (col : string) : bool :=
  match run Out col with ([], Out) => true | _ => false end
  && nd_start col && negb (String.eqb col "") && jfree col.

(** A block whose clause carries exactly its slots, in order, starts with a
    non-digit, holds no JOIN, and appends as many values as it has slots. *)
Definition wf_block (b : Block) : Prop :=
  (forall n, placeholders (clause b n) = seq n (slots b))
  /\ (forall n, nd_start (clause b n) = true)
  /\ (forall n, jfree (clause b n) = true)
  /\ length (args b) = slots b.

(** * Concrete inputs

    A clock reading, the default parameters, and instances of the library
    functions: a ParseFloat accepting a few literals, the truncating
    float64 -> uint64 conversion of amd64 on non-negative values below
    2^64, and the success status. *)

Definition t0 : Time := mkTime 0 "Local".

Definition p0 : SearchParameters := NewSearchParameters t0 t0.

(** 1e300 *)
Definition BIG : float := 0x1.7e43c8800759cp+996%float.

Definition ParseFloat_ex (s : string) : float * option string :=
  if String.eqb s "42" then (42%float, None)
  else if String.eqb s "-2.5" then ((-2.5)%float, None)
  else if String.eqb s "1e300" then (BIG, None)
  else (0%float, Some ("strconv.ParseFloat: parsing " ++ s ++ ": invalid syntax")).

Definition uint64_ex (f : float) : Z :=
  match Prim2SF f with
  | S754_finite false m e =>
      (if Z.leb 0 e then Zpos m * 2 ^ e else Zpos m / 2 ^ (- e)) mod 2 ^ 64
  | _ => 0
  end%Z.

Definition StatusSuccess_ex : string := "success".

(** The default parameters with an unparsable AgentID. *)
Definition p_abc : SearchParameters :=
  mkSearchParameters INF PCT (After p0) "abc" PCT (Before p0) INF false INF PCT
    100 0 "" PCT "" PCT "action".

(** The default parameters with ActionID 1e300 and AgentID -2.5. *)
Definition p_big : SearchParameters :=
  mkSearchParameters "1e300" PCT (After p0) "-2.5" PCT (Before p0) INF false INF PCT
    100 0 "" PCT "" PCT "action".

(** The default parameters with a Status filter. *)
Definition p_status : SearchParameters :=
  mkSearchParameters INF PCT (After p0) INF PCT (Before p0) INF false INF PCT
    100 0 "" "completed" "" PCT "action".

(** The default parameters with AgentID 42, an ActionName pattern, a Status
    filter and FoundAnything set. *)
Definition p_mixed : SearchParameters :=
  mkSearchParameters INF "%scan%" (After p0) "42" PCT (Before p0) INF true INF PCT
    100 0 "" "completed" "" PCT "action".

(** The ranges makeIDsFromParams resolves for [p_mixed]. *)
Definition ids_mixed : IDs :=
  mkIDs 0 MAXFLOAT64 0 MAXFLOAT64 42 42 0 MAXFLOAT64.

(** A store and stand-ins for the mig records: a row is a number, every
    record is the number of its row, row 13 fails to scan, the json columns
    are empty and decode without error, and both lookups succeed. *)
Definition scan_ex (n : nat) : nat * option string :=
  if Nat.eqb n 13 then (0, Some "sql: Scan error on column index 1") else (n, None).

Definition no_json : bytes := [].

Definition ScanCommand_ex (n : nat)
    : (nat * (bytes * bytes * bytes * bytes * bytes * bytes * bytes)) * option string :=
  let '(x, e) := scan_ex n in
  ((x, (no_json, no_json, no_json, no_json, no_json, no_json, no_json)), e).

Definition ScanAction_ex (n : nat) : (nat * (bytes * bytes * bytes * bytes)) * option string :=
  let '(x, e) := scan_ex n in ((x, (no_json, no_json, no_json, no_json)), e).

Definition Unmarshal_ex {D : Type} (j : bytes) (d : D) (x : nat) : nat * option string := (x, None).

Definition GetActionCounters_ex (id : nat) : nat * option string := (0, None).

Definition InvestigatorByActionID_ex (id : nat) : list nat * option string := ([], None).

Definition Prepare_ok (q : string) : option string := None.

Definition Prepare_bad (q : string) : option string := Some "pq: syntax error at or near GROUP".

(** Every query yields [rows], then [rows.Err()] reports [rows_err]. *)
Definition Query_rows (rows : list nat) (rows_err : option string) (q : string) (vs : list value)
    : (list nat * option string) * option string :=
  ((rows, rows_err), None).

Definition Query_bad (q : string) (vs : list value) : (list nat * option string) * option string :=
  (([], None), Some "dial tcp: connection refused").

(** A theorem over the row-reading parameters, at these stand-ins with the
    store [prep], [query]. *)
Abbreviation at_store_ex thm prep query :=
  (thm ParseFloat_ex uint64_ex StatusSuccess_ex nat nat nat nat nat prep query
       ScanCommand_ex ScanAction_ex scan_ex scan_ex Unmarshal_ex Unmarshal_ex nat nat
       (fun a : nat => a) (fun c : nat => c) (fun a (_ : nat) => a) (fun a (_ : list nat) => a)
       (fun (_ : nat) (a : nat) => a) GetActionCounters_ex InvestigatorByActionID_ex)
  (only parsing).

(** The four searches at these stand-ins, with the store [prep], [query]. *)
Abbreviation SearchCommands_ex prep query :=
  (db_SearchCommands ParseFloat_ex uint64_ex StatusSuccess_ex nat nat nat nat prep query
     ScanCommand_ex Unmarshal_ex nat nat (fun a : nat => a) (fun c : nat => c)
     (fun a (_ : nat) => a) (fun a (_ : list nat) => a) (fun (_ : nat) (a : nat) => a)
     GetActionCounters_ex InvestigatorByActionID_ex) (only parsing).
Abbreviation SearchActions_ex prep query :=
  (db_SearchActions ParseFloat_ex uint64_ex nat nat nat prep query ScanAction_ex Unmarshal_ex
     nat nat (fun a : nat => a) (fun a (_ : nat) => a) (fun a (_ : list nat) => a)
     GetActionCounters_ex InvestigatorByActionID_ex) (only parsing).
Abbreviation SearchAgents_ex prep query :=
  (db_SearchAgents ParseFloat_ex uint64_ex nat nat prep query scan_ex) (only parsing).
Abbreviation SearchInvestigators_ex prep query :=
  (db_SearchInvestigators ParseFloat_ex uint64_ex nat nat prep query scan_ex) (only parsing).

(** The ranges of the default parameters. *)
Definition ids_default : IDs :=
  mkIDs 0 MAXFLOAT64 0 MAXFLOAT64 0 MAXFLOAT64 0 MAXFLOAT64.

(** * Lemmas *)

Lemma sapp_assoc (a b c : string) : (a ++ b) ++ c = a ++ (b ++ c).
Proof. induction a as [|x a IH]; simpl; [reflexivity | now rewrite IH]. Qed.

Lemma sapp_nil_r (a : string) : a ++ "" = a.
Proof. induction a as [|x a IH]; simpl; [reflexivity | now rewrite IH]. Qed.

(** ** The placeholder scanner *)

Lemma scan_app st a b :
  scan st (a ++ b) = (fst (run st a) ++ scan (snd (run st a)) b)%list.
Proof.
  revert st; induction a as [|c a IH]; intros st; simpl; [reflexivity|].
  destruct (is_digit c); [apply IH|].
  rewrite IH. destruct (run (next_state c) a) as [ns st']; simpl.
  now rewrite app_assoc.
Qed.

Lemma scan_run st a : scan st a = (fst (run st a) ++ flush (snd (run st a)))%list.
Proof.
  rewrite <- (sapp_nil_r a) at 1. rewrite scan_app. reflexivity.
Qed.

Lemma scan_nd st b : nd_start b = true -> scan st b = (flush st ++ scan Out b)%list.
Proof.
  destruct b as [|c b]; simpl; intros H.
  - now rewrite app_nil_r.
  - apply negb_true_iff in H. now rewrite H.
Qed.

Lemma placeholders_app a b :
  nd_start b = true -> placeholders (a ++ b) = (placeholders a ++ placeholders b)%list.
Proof.
  intros H. unfold placeholders at 1 2.
  rewrite scan_app, (scan_nd _ b H), (scan_run Out a), app_assoc. reflexivity.
Qed.

Lemma run_uint acc d :
  run (InNum acc) (NilEmpty.string_of_uint d) = ([], InNum (Nat.of_uint_acc d acc)).
Proof.
  revert acc; induction d; intros acc; simpl; try reflexivity;
    rewrite IHd, Nat.tail_mul_spec; do 3 f_equal; simpl; lia.
Qed.

Lemma to_uint_not_nil n : Nat.to_uint n <> Decimal.Nil.
Proof.
  intros H. pose proof (DecimalNat.Unsigned.of_to n) as E.
  rewrite H in E. simpl in E. subst n. discriminate H.
Qed.

Lemma run_itoa n : run Dollar (itoa n) = ([], InNum n).
Proof.
  unfold itoa. pose proof (DecimalNat.Unsigned.of_to n) as E.
  pose proof (to_uint_not_nil n) as H.
  destruct (Nat.to_uint n) as [|d|d|d|d|d|d|d|d|d|d]; [congruence| ..];
    unfold Nat.of_uint in E; rewrite <- E, <- run_uint; reflexivity.
Qed.

Lemma scan_dollar_itoa n b :
  nd_start b = true -> scan Dollar (itoa n ++ b) = n :: scan Out b.
Proof.
  intros H. rewrite scan_app, run_itoa. simpl. now rewrite scan_nd.
Qed.

Lemma scan_dollar_itoa_end n : scan Dollar (itoa n) = [n].
Proof. rewrite scan_run, run_itoa. reflexivity. Qed.

Lemma jfree_app a b : jfree (a ++ b) = jfree a && jfree b.
Proof. induction a as [|c a IH]; simpl; [reflexivity | now rewrite IH, andb_assoc]. Qed.

Lemma jfree_itoa n : jfree (itoa n) = true.
Proof. unfold itoa. induction (Nat.to_uint n); simpl; auto. Qed.

Lemma nd_start_app a b : a <> "" -> nd_start (a ++ b) = nd_start a.
Proof. destruct a; [congruence | reflexivity]. Qed.

Lemma col_okb_spec col :
  col_okb col = true ->
  run Out col = ([], Out) /\ nd_start col = true /\ col <> "" /\ jfree col = true.
Proof.
  unfold col_okb. intros H.
  repeat (apply andb_true_iff in H; destruct H as [H ?]).
  repeat split; auto.
  - destruct (run Out col) as [[|] [| |]]; try discriminate; reflexivity.
  - apply negb_true_iff, String.eqb_neq in H1. exact H1.
Qed.

Ltac scan_simpl :=
  repeat first
    [ rewrite scan_dollar_itoa_end
    | rewrite scan_dollar_itoa by reflexivity
    | progress cbn ].

Lemma le_clause_ph col n : run Out col = ([], Out) -> placeholders (le_clause col n) = [n].
Proof. intros H. unfold placeholders, le_clause. rewrite scan_app, H. now scan_simpl. Qed.

Lemma ge_clause_ph col n : run Out col = ([], Out) -> placeholders (ge_clause col n) = [n].
Proof. intros H. unfold placeholders, ge_clause. rewrite scan_app, H. now scan_simpl. Qed.

Lemma ilike_clause_ph col n : run Out col = ([], Out) -> placeholders (ilike_clause col n) = [n].
Proof. intros H. unfold placeholders, ilike_clause. rewrite scan_app, H. now scan_simpl. Qed.

Lemma range_clause_ph col n :
  run Out col = ([], Out) -> placeholders (range_clause col n) = [n; n + 1].
Proof.
  intros H. unfold placeholders, range_clause. rewrite scan_app, H. scan_simpl.
  rewrite scan_app, H. now scan_simpl.
Qed.

Lemma threat_clause_ph n : placeholders (threat_clause n) = [n].
Proof. unfold placeholders, threat_clause. now scan_simpl. Qed.

Lemma foundanything_clause_ph n :
  placeholders (foundanything_clause n) = [n; n + 1; n + 2; n + 3].
Proof. unfold placeholders, foundanything_clause, NL, TAB. now scan_simpl. Qed.

Lemma limit_offset_ph tail k :
  run Out tail = ([], Out) -> placeholders (limit_offset tail k) = [k + 1; k + 2].
Proof. intros H. unfold placeholders, limit_offset. rewrite scan_app, H. now scan_simpl. Qed.

(** ** Well-formed blocks *)

Ltac wf_tail Hn Hne Hj :=
  repeat split;
  [ | intro n; unfold le_clause, ge_clause, range_clause, ilike_clause;
      rewrite nd_start_app by exact Hne; exact Hn
    | intro n; unfold le_clause, ge_clause, range_clause, ilike_clause;
      rewrite !jfree_app, !jfree_itoa, Hj; reflexivity
    | assumption ].

Lemma wf_le col g f a sets :
  col_okb col = true -> length a = 1 -> wf_block (mkBlock g f (le_clause col) a 1 sets).
Proof.
  intros Hc Ha. apply col_okb_spec in Hc as (Hr & Hn & Hne & Hj).
  unfold wf_block; simpl. wf_tail Hn Hne Hj. intro n. now rewrite le_clause_ph by exact Hr.
Qed.

Lemma wf_ge col g f a sets :
  col_okb col = true -> length a = 1 -> wf_block (mkBlock g f (ge_clause col) a 1 sets).
Proof.
  intros Hc Ha. apply col_okb_spec in Hc as (Hr & Hn & Hne & Hj).
  unfold wf_block; simpl. wf_tail Hn Hne Hj. intro n. now rewrite ge_clause_ph by exact Hr.
Qed.

Lemma wf_ilike col g f a sets :
  col_okb col = true -> length a = 1 -> wf_block (mkBlock g f (ilike_clause col) a 1 sets).
Proof.
  intros Hc Ha. apply col_okb_spec in Hc as (Hr & Hn & Hne & Hj).
  unfold wf_block; simpl. wf_tail Hn Hne Hj. intro n. now rewrite ilike_clause_ph by exact Hr.
Qed.

Lemma wf_range col g f a sets :
  col_okb col = true -> length a = 2 -> wf_block (mkBlock g f (range_clause col) a 2 sets).
Proof.
  intros Hc Ha. apply col_okb_spec in Hc as (Hr & Hn & Hne & Hj).
  unfold wf_block; simpl. wf_tail Hn Hne Hj. intro n.
  rewrite range_clause_ph by exact Hr. simpl. now rewrite Nat.add_1_r.
Qed.

Lemma wf_threat g f a sets :
  length a = 1 -> wf_block (mkBlock g f threat_clause a 1 sets).
Proof.
  intros Ha. unfold wf_block; simpl. repeat split; auto.
  - intro n. now rewrite threat_clause_ph.
  - intro n. unfold threat_clause. now rewrite !jfree_app, !jfree_itoa.
Qed.

Lemma wf_foundanything g f a sets :
  length a = 4 -> wf_block (mkBlock g f foundanything_clause a 4 sets).
Proof.
  intros Ha. unfold wf_block; simpl. repeat split; auto.
  - intro n. rewrite foundanything_clause_ph. simpl. repeat f_equal; lia.
  - intro n. unfold foundanything_clause, NL, TAB.
    repeat progress (cbn; rewrite ?jfree_app, ?jfree_itoa). reflexivity.
Qed.

Ltac solve_wf_blocks :=
  unfold commands_blocks, actions_blocks, agents_blocks, investigators_blocks, threat_block;
  cbn [app];
  repeat (apply Forall_cons;
          [ lazymatch goal with
            | |- wf_block (mkBlock _ _ (le_clause _) _ _ _) => apply wf_le
            | |- wf_block (mkBlock _ _ (ge_clause _) _ _ _) => apply wf_ge
            | |- wf_block (mkBlock _ _ (ilike_clause _) _ _ _) => apply wf_ilike
            | |- wf_block (mkBlock _ _ (range_clause _) _ _ _) => apply wf_range
            | |- wf_block (mkBlock _ _ threat_clause _ _ _) => apply wf_threat
            | |- wf_block (mkBlock _ _ foundanything_clause _ _ _) => apply wf_foundanything
            end; vm_compute; reflexivity | ]);
  apply Forall_nil.

Lemma commands_blocks_wf ss p ids fa now1 now2 :
  Forall wf_block (commands_blocks ss p ids fa now1 now2).
Proof. solve_wf_blocks. Qed.

Lemma actions_blocks_wf p ids now1 now2 :
  Forall wf_block (actions_blocks p ids now1 now2 ++ [threat_block p]).
Proof. solve_wf_blocks. Qed.

Lemma agents_blocks_wf p ids now1 now2 : Forall wf_block (agents_blocks p ids now1 now2).
Proof. solve_wf_blocks. Qed.

Lemma investigators_blocks_wf p ids now1 now2 :
  Forall wf_block (investigators_blocks p ids now1 now2).
Proof. solve_wf_blocks. Qed.

(** ** The block interpreter *)

Lemma run_blocks_cons l b bs : run_blocks l (b :: bs) = run_blocks (exec_block l b) bs.
Proof. reflexivity. Qed.

Lemma run_blocks_app l bs1 bs2 :
  run_blocks l (bs1 ++ bs2) = run_blocks (run_blocks l bs1) bs2.
Proof. unfold run_blocks. apply fold_left_app. Qed.

Lemma run_blocks_inv bs :
  Forall wf_block bs ->
  forall l, length (vals l) = valctr l ->
  let l' := run_blocks l bs in
  let L := layout (valctr l + 1) bs in
  placeholders (sql l') = (placeholders (sql l) ++ concat (map fst L))%list
  /\ vals l' = (vals l ++ concat (map snd L))%list
  /\ concat (map fst L) = seq (valctr l + 1) (valctr l' - valctr l)
  /\ valctr l <= valctr l'
  /\ length (vals l') = valctr l'
  /\ Forall (fun x => length (fst x) = length (snd x)) L
  /\ (exists W, sql l' = sql l ++ W /\ jfree W = true)
  /\ flags l' = (flags l ++ concat (map sets (active bs)))%list.
Proof.
  induction bs as [|b bs IH]; intros Hwf l Hlen; cbn zeta.
  - cbn. rewrite !app_nil_r, Nat.sub_diag. repeat split; auto.
    exists "". split; [symmetry; apply sapp_nil_r | reflexivity].
  - inversion Hwf as [|? ? Hb Hbs]; subst.
    destruct Hb as (Hph & Hnd & Hjf & Hlen_b).
    rewrite run_blocks_cons. cbn [layout active filter].
    destruct (guard b) eqn:G.
    + set (l1 := exec_block l b).
      assert (Hl1 : l1 = mkLocals
                ((if Nat.ltb 0 (valctr l) then sql l ++ " AND " else sql l)
                   ++ clause b (valctr l + 1))
                (vals l ++ args b) (valctr l + slots b) (flags l ++ sets b))
        by (unfold l1, exec_block; now rewrite G).
      assert (Hlen1 : length (vals l1) = valctr l1)
        by (rewrite Hl1; simpl; rewrite length_app; lia).
      destruct (IH Hbs l1 Hlen1) as (P & V & S & Le & Ln & F & (W & HW & JW) & Fl).
      assert (E : valctr l + 1 + slots b = valctr l1 + 1) by (rewrite Hl1; simpl; lia).
      rewrite E.
      set (L1 := layout (valctr l1 + 1) bs) in *.
      set (l' := run_blocks l1 bs) in *.
      assert (Hsql1 : placeholders (sql l1)
                      = (placeholders (sql l) ++ seq (valctr l + 1) (slots b))%list).
      { rewrite Hl1. simpl sql. rewrite placeholders_app by apply Hnd. rewrite Hph.
        destruct (Nat.ltb 0 (valctr l)); [|reflexivity].
        rewrite placeholders_app by reflexivity. now rewrite app_nil_r. }
      assert (Hv1 : valctr l1 = valctr l + slots b) by (rewrite Hl1; reflexivity).
      repeat split.
      * rewrite P, Hsql1, Hph. now rewrite <- !app_assoc.
      * rewrite V, Hl1. simpl. now rewrite app_assoc.
      * simpl. rewrite Hph, S, Hv1.
        replace (valctr l' - valctr l) with (slots b + (valctr l' - (valctr l + slots b))) by lia.
        rewrite seq_app. do 2 f_equal. lia.
      * lia.
      * exact Ln.
      * constructor; [simpl; rewrite Hph, length_seq; auto | exact F].
      * exists ((if Nat.ltb 0 (valctr l) then " AND " else "") ++ clause b (valctr l + 1) ++ W).
        split.
        -- rewrite HW, Hl1. simpl sql.
           destruct (Nat.ltb 0 (valctr l)); simpl; rewrite !sapp_assoc; reflexivity.
        -- rewrite !jfree_app, Hjf, JW. destruct (Nat.ltb 0 (valctr l)); reflexivity.
      * rewrite Fl, Hl1. simpl. now rewrite app_assoc.
    + assert (Hl1 : exec_block l b = l) by (unfold exec_block; now rewrite G).
      rewrite Hl1. apply IH; auto.
Qed.

(** ** Joined tables of a concatenation *)

Lemma after_prefix_app pre s r b :
  after_prefix pre s = Some r -> after_prefix pre (s ++ b) = Some (r ++ b).
Proof.
  revert s. induction pre as [|a pre IH]; intros s H; simpl in H.
  - now inversion H.
  - destruct s as [|c s]; [discriminate|]. simpl.
    destruct (Ascii.eqb a c); [now apply IH | discriminate].
Qed.

Lemma word_app r b : has_space r = true -> word (r ++ b) = word r.
Proof.
  induction r as [|c r IH]; simpl; [discriminate|].
  destruct (Ascii.eqb c " "); simpl; [reflexivity|].
  intros H. now rewrite IH.
Qed.

Lemma after_prefix_JOIN_head c s :
  Ascii.eqb c "J" = false -> after_prefix "JOIN " (String c s) = None.
Proof. intros H. cbn [after_prefix]. rewrite Ascii.eqb_sym, H. reflexivity. Qed.

Lemma joined_tables_app a b :
  jclosed a = true -> joined_tables (a ++ b) = (joined_tables a ++ joined_tables b)%list.
Proof.
  induction a as [|c a IH]; intros H; [reflexivity|].
  cbn [jclosed] in H. apply andb_prop in H as [Hc Ha].
  change (String c a ++ b) with (String c (a ++ b)).
  unfold joined_tables; fold joined_tables.
  destruct (Ascii.eqb c "J") eqn:EJ.
  - destruct (after_prefix "JOIN " (String c a)) as [r|] eqn:E; [|discriminate Hc].
    change (String c (a ++ b)) with (String c a ++ b).
    rewrite (after_prefix_app _ _ _ _ E), (word_app _ _ Hc), IH by exact Ha.
    reflexivity.
  - rewrite !after_prefix_JOIN_head by exact EJ. apply IH, Ha.
Qed.

Lemma joined_tables_jfree a : jfree a = true -> joined_tables a = [].
Proof.
  induction a as [|c a IH]; intros H; [reflexivity|].
  cbn [jfree] in H. apply andb_prop in H as [Hc Ha].
  cbn [joined_tables]. rewrite after_prefix_JOIN_head by now destruct (Ascii.eqb c "J").
  apply IH, Ha.
Qed.

Lemma limit_offset_jfree tail k : jfree tail = true -> jfree (limit_offset tail k) = true.
Proof.
  intros H. unfold limit_offset. rewrite !jfree_app, H, !jfree_itoa. reflexivity.
Qed.

Lemma select_query_split columns table join where_ tail k :
  select_query columns table join where_ tail k
  = ("SELECT " ++ columns ++ " FROM " ++ table ++ " " ++ join ++ " WHERE ")
    ++ (where_ ++ limit_offset tail k).
Proof. unfold select_query. rewrite !sapp_assoc. reflexivity. Qed.

Lemma is_set_run l bs f :
  is_set (run_blocks l bs) f
  = is_set l f || existsb (fun b => guard b && existsb (JoinFlag_eqb f) (sets b)) bs.
Proof.
  revert l. induction bs as [|b bs IH]; intros l.
  - simpl. now rewrite orb_false_r.
  - rewrite run_blocks_cons, IH. cbn [existsb]. unfold exec_block.
    destruct (guard b); cbn [andb]; [|reflexivity].
    unfold is_set. cbn [flags]. rewrite existsb_app. now rewrite orb_assoc.
Qed.

(** ** Join inference of the builders *)

Ltac simpl_flags :=
  cbn [existsb guard sets JoinFlag_eqb orb andb is_set init_locals flags];
  rewrite ?andb_false_r, ?andb_true_r, ?orb_false_r, ?orb_false_l.

Lemma actions_joined_tables u64 p ids now1 now2 :
  joined_tables (fst (actions_query u64 p ids now1 now2)) = tables_of (spec_actions_joins p).
Proof.
  unfold actions_query. cbn [fst].
  rewrite select_query_split, <- run_blocks_app.
  destruct (run_blocks_inv _ (actions_blocks_wf p ids now1 now2) (init_locals "") eq_refl)
    as (_&_&_&_&_&_&(W&HW&JW)&_).
  cbn zeta in HW. rewrite HW. cbn [sql init_locals].
  unfold actions_join. rewrite !is_set_run. unfold actions_blocks, threat_block. simpl_flags.
  unfold spec_actions_joins, is_filter_set, at_sentinel, neq.
  destruct (String.eqb (AgentID p) INF), (String.eqb (AgentName p) PCT),
    (String.eqb (CommandID p) INF), (String.eqb (InvestigatorID p) INF),
    (String.eqb (InvestigatorName p) PCT); cbn [negb orb];
  (rewrite joined_tables_app by (vm_compute; reflexivity);
   rewrite (joined_tables_jfree (W ++ _))
     by (rewrite jfree_app, JW; apply limit_offset_jfree; vm_compute; reflexivity);
   vm_compute; reflexivity).
Qed.

Lemma agents_joined_tables u64 p ids now1 now2 :
  joined_tables (fst (agents_query u64 p ids now1 now2)) = tables_of (spec_agents_joins p).
Proof.
  unfold agents_query. cbn [fst].
  rewrite select_query_split.
  destruct (run_blocks_inv _ (agents_blocks_wf p ids now1 now2) (init_locals "") eq_refl)
    as (_&_&_&_&_&_&(W&HW&JW)&_).
  cbn zeta in HW. rewrite HW. cbn [sql init_locals].
  unfold agents_join. rewrite !is_set_run. unfold agents_blocks. simpl_flags.
  unfold spec_agents_joins, is_filter_set, at_sentinel, neq.
  destruct (String.eqb (ActionID p) INF), (String.eqb (ActionName p) PCT),
    (String.eqb (ThreatFamily p) PCT), (String.eqb (CommandID p) INF),
    (String.eqb (InvestigatorID p) INF), (String.eqb (InvestigatorName p) PCT); cbn [negb orb];
  (rewrite joined_tables_app by (vm_compute; reflexivity);
   rewrite (joined_tables_jfree (W ++ _))
     by (rewrite jfree_app, JW; apply limit_offset_jfree; vm_compute; reflexivity);
   vm_compute; reflexivity).
Qed.

Lemma investigators_joined_tables u64 p ids now1 now2 :
  joined_tables (fst (investigators_query u64 p ids now1 now2))
  = tables_of (spec_investigators_joins p).
Proof.
  unfold investigators_query. cbn [fst].
  rewrite select_query_split.
  destruct (run_blocks_inv _ (investigators_blocks_wf p ids now1 now2) (init_locals "") eq_refl)
    as (_&_&_&_&_&_&(W&HW&JW)&_).
  cbn zeta in HW. rewrite HW. cbn [sql init_locals].
  unfold investigators_join. rewrite !is_set_run. unfold investigators_blocks. simpl_flags.
  unfold spec_investigators_joins, is_filter_set, at_sentinel, neq.
  destruct (String.eqb (ActionID p) INF), (String.eqb (ActionName p) PCT),
    (String.eqb (ThreatFamily p) PCT), (String.eqb (CommandID p) INF),
    (String.eqb (AgentID p) INF), (String.eqb (AgentName p) PCT); cbn [negb orb];
  (rewrite joined_tables_app by (vm_compute; reflexivity);
   rewrite (joined_tables_jfree (W ++ _))
     by (rewrite jfree_app, JW; apply limit_offset_jfree; vm_compute; reflexivity);
   vm_compute; reflexivity).
Qed.

Lemma commands_joined_tables u64 ss p ids fa now1 now2 :
  joined_tables (fst (commands_query u64 ss p ids fa now1 now2)) = tables_of spec_commands_joins.
Proof.
  unfold commands_query. cbn [fst].
  destruct (run_blocks_inv _ (commands_blocks_wf ss p ids fa now1 now2)
              (init_locals commands_select) eq_refl)
    as (_&_&_&_&_&_&(W&HW&JW)&_).
  cbn zeta in HW. rewrite HW. cbn [sql init_locals].
  rewrite sapp_assoc, joined_tables_app by (vm_compute; reflexivity).
  rewrite (joined_tables_jfree (W ++ _))
    by (rewrite jfree_app, JW; apply limit_offset_jfree; vm_compute; reflexivity).
  vm_compute. reflexivity.
Qed.

(** ** The text a run of blocks appends *)

Lemma run_blocks_sql_ext l bs : exists W, sql (run_blocks l bs) = sql l ++ W.
Proof.
  revert l. induction bs as [|b bs IH]; intros l.
  - exists "". symmetry. apply sapp_nil_r.
  - rewrite run_blocks_cons. destruct (IH (exec_block l b)) as [W HW].
    rewrite HW. unfold exec_block. destruct (guard b); [|now exists W].
    cbn [sql]. destruct (Nat.ltb 0 (valctr l)).
    + exists (" AND " ++ clause b (valctr l + 1) ++ W). now rewrite !sapp_assoc.
    + exists (clause b (valctr l + 1) ++ W). now rewrite !sapp_assoc.
Qed.

(** ** Placeholders of a whole query *)

Lemma placeholders_prefix pre s :
  run Out pre = ([], Out) -> placeholders (pre ++ s) = placeholders s.
Proof. intros H. unfold placeholders. now rewrite scan_app, H. Qed.

Lemma query_layout pre s0 bs tail lim off :
  Forall wf_block bs -> run Out pre = ([], Out) -> run Out s0 = ([], Out) ->
  run Out tail = ([], Out) -> nd_start tail = true -> tail <> "" ->
  consecutive_slots
    (pre ++ (sql (run_blocks (init_locals s0) bs)
             ++ limit_offset tail (valctr (run_blocks (init_locals s0) bs))))
    (vals (run_blocks (init_locals s0) bs) ++ [lim; off])%list bs lim off.
Proof.
  intros Hwf Hpre Hs0 Ht Hnd Hne. unfold consecutive_slots. cbn zeta.
  destruct (run_blocks_inv bs Hwf (init_locals s0) eq_refl) as (P & V & S & _ & Ln & F & _).
  cbn zeta in P, V, S, Ln, F. cbn [valctr vals init_locals sql Nat.add app] in P, V, S, Ln, F |- *.
  rewrite Nat.sub_0_r in S.
  rewrite length_app, Ln. cbn [length]. rewrite Nat.add_sub.
  repeat split; [| now rewrite V | exact S | exact F].
  rewrite placeholders_prefix by exact Hpre.
  rewrite placeholders_app by (unfold limit_offset; rewrite nd_start_app by exact Hne; exact Hnd).
  rewrite P, limit_offset_ph by exact Ht.
  unfold placeholders at 1. rewrite scan_run, Hs0. cbn [fst snd flush app].
  rewrite S, seq_app. cbn [seq]. do 2 f_equal; [lia | f_equal; lia].
Qed.

(** ** The identifier range resolver *)

Lemma resolve_INF PF : resolve PF INF = (0%float, MAXFLOAT64, None).
Proof. reflexivity. Qed.

Lemma resolve_ok PF s v : s <> INF -> PF s = (v, None) -> resolve PF s = (v, v, None).
Proof.
  intros Hs Hp. unfold resolve, neq.
  apply String.eqb_neq in Hs. rewrite Hs, Hp. reflexivity.
Qed.

Lemma resolve_none PF s : snd (resolve PF s) = None <-> s = INF \/ snd (PF s) = None.
Proof.
  unfold resolve, neq. destruct (String.eqb s INF) eqn:E; cbn [negb].
  - apply String.eqb_eq in E. cbn. tauto.
  - apply String.eqb_neq in E. destruct (PF s) as [v [e|]]; cbn; intuition congruence.
Qed.

Lemma parse_failure_dec (PF : string -> float * option string) (s : string) :
  {s <> INF /\ snd (PF s) <> None} + {~ (s <> INF /\ snd (PF s) <> None)}.
Proof.
  destruct (String.eqb_spec s INF), (snd (PF s));
  [right | right | left | right]; intuition congruence.
Qed.

Lemma resolve_fails_iff PF s :
  snd (resolve PF s) = None
  <-> ~ (s <> INF /\ snd (PF s) <> None).
Proof.
  rewrite resolve_none. destruct (String.eqb_spec s INF), (snd (PF s)); intuition congruence.
Qed.

Lemma makeIDs_none PF p ids :
  makeIDsFromParams PF p = (ids, None) ->
  resolve PF (ActionID p) = (minActionID ids, maxActionID ids, None)
  /\ resolve PF (CommandID p) = (minCommandID ids, maxCommandID ids, None)
  /\ resolve PF (AgentID p) = (minAgentID ids, maxAgentID ids, None)
  /\ resolve PF (InvestigatorID p) = (minInvID ids, maxInvID ids, None).
Proof.
  unfold makeIDsFromParams.
  destruct (resolve PF (ActionID p)) as [[a1 a2] [ea|]]; [discriminate|].
  destruct (resolve PF (CommandID p)) as [[c1 c2] [ec|]]; [discriminate|].
  destruct (resolve PF (AgentID p)) as [[g1 g2] [eg|]]; [discriminate|].
  destruct (resolve PF (InvestigatorID p)) as [[i1 i2] [ei|]]; [discriminate|].
  intros H. inversion H. subst. cbn. auto.
Qed.

Lemma makeIDs_error_iff PF p :
  snd (makeIDsFromParams PF p) = None
  <-> snd (resolve PF (ActionID p)) = None /\ snd (resolve PF (CommandID p)) = None
      /\ snd (resolve PF (AgentID p)) = None /\ snd (resolve PF (InvestigatorID p)) = None.
Proof.
  unfold makeIDsFromParams.
  destruct (resolve PF (ActionID p)) as [[a1 a2] [ea|]]; cbn; [intuition discriminate|].
  destruct (resolve PF (CommandID p)) as [[c1 c2] [ec|]]; cbn; [intuition discriminate|].
  destruct (resolve PF (AgentID p)) as [[g1 g2] [eg|]]; cbn; [intuition discriminate|].
  destruct (resolve PF (InvestigatorID p)) as [[i1 i2] [ei|]]; cbn; intuition discriminate.
Qed.

(** ** The four searches after the resolver *)

Section Outcomes.
Variables (PF : string -> float * option string) (u64 : float -> Z) (ss : string).
Variables (Cmd Act Ag Inv : Type).

Lemma searches_error p e fa now1 now2 :
  snd (makeIDsFromParams PF p) = Some e ->
  SearchCommands PF u64 ss Cmd p fa now1 now2 = Returned [] e
  /\ SearchActions PF u64 Act p now1 now2 = Returned [] e
  /\ SearchAgents PF u64 Ag p now1 now2 = Returned [] e
  /\ SearchInvestigators PF u64 Inv p now1 now2 = Returned [] e.
Proof.
  unfold SearchCommands, SearchActions, SearchAgents, SearchInvestigators.
  destruct (makeIDsFromParams PF p) as [ids [e'|]]; cbn; intros H; inversion H; auto.
Qed.

Lemma searches_issued p ids fa now1 now2 :
  makeIDsFromParams PF p = (ids, None) ->
  SearchCommands PF u64 ss Cmd p fa now1 now2
    = Issued (fst (commands_query u64 ss p ids fa now1 now2))
             (snd (commands_query u64 ss p ids fa now1 now2))
  /\ SearchActions PF u64 Act p now1 now2
    = Issued (fst (actions_query u64 p ids now1 now2)) (snd (actions_query u64 p ids now1 now2))
  /\ SearchAgents PF u64 Ag p now1 now2
    = Issued (fst (agents_query u64 p ids now1 now2)) (snd (agents_query u64 p ids now1 now2))
  /\ SearchInvestigators PF u64 Inv p now1 now2
    = Issued (fst (investigators_query u64 p ids now1 now2))
             (snd (investigators_query u64 p ids now1 now2)).
Proof.
  unfold SearchCommands, SearchActions, SearchAgents, SearchInvestigators.
  intros H. rewrite H.
  destruct (commands_query u64 ss p ids fa now1 now2), (actions_query u64 p ids now1 now2),
    (agents_query u64 p ids now1 now2), (investigators_query u64 p ids now1 now2).
  auto.
Qed.

End Outcomes.

Lemma resolve_parsed PF s :
  s <> INF -> snd (PF s) = None -> resolve PF s = (fst (PF s), fst (PF s), None).
Proof.
  intros Hs Hp. destruct (PF s) as [v e] eqn:E. cbn in Hp. subst e.
  cbn [fst]. apply resolve_ok; [exact Hs | exact E].
Qed.

(** ** Blocks a guard switches off *)

Lemma active_field_free F bs :
  Forall (fun b => field b = F -> guard b = false) bs -> Forall (fun b => field b <> F) (active bs).
Proof.
  intros H. unfold active. apply Forall_forall. intros b Hb HF.
  apply filter_In in Hb as [Hin Hg]. rewrite Forall_forall in H.
  rewrite (H b Hin HF) in Hg. discriminate.
Qed.

Ltac blocks_guard_off tac :=
  repeat (apply Forall_cons; [cbn [field guard]; intros HF; first [discriminate HF | tac] |]);
  apply Forall_nil.

(** ** Block lists split at the found-anything and status blocks *)

Lemma commands_blocks_split ss p ids fa now1 now2 :
  commands_blocks ss p ids fa now1 now2
  = (firstn 10 (commands_blocks ss p ids false now1 now2)
     ++ [mkBlock fa FFoundAnything foundanything_clause
           [VString ss; VFloat (minActionID ids); VFloat (maxActionID ids);
            VBool (FoundAnything p)] 4 [];
         threat_block p])%list.
Proof. reflexivity. Qed.

Lemma actions_blocks_split p ids now1 now2 :
  actions_blocks p ids now1 now2
  = (firstn 2 (actions_blocks p ids now1 now2)
     ++ mkBlock (neq (Status p) PCT) FStatus (ilike_clause "action.status")
          [VString (Status p)] 1 [] :: skipn 3 (actions_blocks p ids now1 now2))%list.
Proof. reflexivity. Qed.

(** ** Substrings *)

Lemma contains_app_l n a b : contains n b -> contains n (a ++ b).
Proof. intros (x & y & ->). exists (a ++ x), y. now rewrite sapp_assoc. Qed.

Lemma contains_app_r n a b : contains n a -> contains n (a ++ b).
Proof. intros (x & y & ->). exists x, (y ++ b). now rewrite !sapp_assoc. Qed.

Lemma contains_self n : contains n n.
Proof. exists "", "". cbn. now rewrite sapp_nil_r. Qed.

Lemma resolve_range_parsed PF s lo hi :
  (s = INF \/ snd (PF s) = None) -> resolve PF s = (lo, hi, None) ->
  s <> INF -> lo = fst (PF s) /\ hi = fst (PF s).
Proof.
  intros Hok R Hs. assert (Hp : snd (PF s) = None) by (destruct Hok; [contradiction | assumption]).
  rewrite (resolve_parsed PF s Hs Hp) in R. injection R as -> ->. auto.
Qed.

(** * The claims *)

(** C1: every search that issues a query joins exactly the tables the join
    inference rules give for the filters that are set, each once and in the
    stated order; SearchCommands always joins actions, signatures,
    investigators and agents. *)
Theorem search_joins_follow_rules PF u64 ss (Cmd Act Ag Inv : Type) p fa now1 now2 :
  match SearchCommands PF u64 ss Cmd p fa now1 now2 with
  | Issued q _ => joined_tables q = tables_of spec_commands_joins
  | Returned _ _ => True end
  /\ match SearchActions PF u64 Act p now1 now2 with
     | Issued q _ => joined_tables q = tables_of (spec_actions_joins p)
     | Returned _ _ => True end
  /\ match SearchAgents PF u64 Ag p now1 now2 with
     | Issued q _ => joined_tables q = tables_of (spec_agents_joins p)
     | Returned _ _ => True end
  /\ match SearchInvestigators PF u64 Inv p now1 now2 with
     | Issued q _ => joined_tables q = tables_of (spec_investigators_joins p)
     | Returned _ _ => True end.
Proof.
  destruct (makeIDsFromParams PF p) as [ids [e|]] eqn:E.
  - destruct (searches_error PF u64 ss Cmd Act Ag Inv p e fa now1 now2)
      as (-> & -> & -> & ->); [now rewrite E | auto].
  - destruct (searches_issued PF u64 ss Cmd Act Ag Inv p ids fa now1 now2 E)
      as (-> & -> & -> & ->).
    split; [|split; [|split]].
    + apply commands_joined_tables.
    + apply actions_joined_tables.
    + apply agents_joined_tables.
    + apply investigators_joined_tables.
Qed.

(** C2: the resolver maps the sentinel to [0, 2^53-1] and a parsed value v
    to [v, v]; a search that resolves without error carries these ranges;
    the resolver fails exactly when some non-sentinel identifier does not
    parse, and then every search returns that error with an empty
    collection, issuing no query. *)
Theorem resolver_ranges_and_errors PF u64 ss (Cmd Act Ag Inv : Type) :
  resolve PF INF = (0%float, MAXFLOAT64, None)
  /\ MAXFLOAT64 = PrimFloat.of_uint63 (Uint63.of_Z (2 ^ 53 - 1))
  /\ (forall s v, s <> INF -> PF s = (v, None) -> resolve PF s = (v, v, None))
  /\ (forall p ids, makeIDsFromParams PF p = (ids, None) ->
        resolve PF (ActionID p) = (minActionID ids, maxActionID ids, None)
        /\ resolve PF (CommandID p) = (minCommandID ids, maxCommandID ids, None)
        /\ resolve PF (AgentID p) = (minAgentID ids, maxAgentID ids, None)
        /\ resolve PF (InvestigatorID p) = (minInvID ids, maxInvID ids, None))
  /\ (forall p, snd (makeIDsFromParams PF p) <> None
        <-> (ActionID p <> INF /\ snd (PF (ActionID p)) <> None)
            \/ (CommandID p <> INF /\ snd (PF (CommandID p)) <> None)
            \/ (AgentID p <> INF /\ snd (PF (AgentID p)) <> None)
            \/ (InvestigatorID p <> INF /\ snd (PF (InvestigatorID p)) <> None))
  /\ (forall p e fa now1 now2, snd (makeIDsFromParams PF p) = Some e ->
        SearchCommands PF u64 ss Cmd p fa now1 now2 = Returned [] e
        /\ SearchActions PF u64 Act p now1 now2 = Returned [] e
        /\ SearchAgents PF u64 Ag p now1 now2 = Returned [] e
        /\ SearchInvestigators PF u64 Inv p now1 now2 = Returned [] e).
Proof.
  split; [apply resolve_INF|]. split; [reflexivity|].
  split; [apply resolve_ok|]. split; [apply makeIDs_none|].
  split; [|intros; now apply searches_error].
  intros p. rewrite makeIDs_error_iff, !resolve_fails_iff.
  split.
  - intros H.
    destruct (parse_failure_dec PF (ActionID p)) as [a|n1]; [now left|].
    destruct (parse_failure_dec PF (CommandID p)) as [c|n2]; [now right; left|].
    destruct (parse_failure_dec PF (AgentID p)) as [g|n3]; [now right; right; left|].
    destruct (parse_failure_dec PF (InvestigatorID p)) as [i|n4]; [now right; right; right|].
    exfalso. now apply H.
  - intros Hd (n1 & n2 & n3 & n4). destruct Hd as [a|[a|[a|a]]]; contradiction.
Qed.

(** C3: the default parameters render as type=action, after, before and
    limit=100 and nothing else; the default window is defaultSearchPeriod,
    39600 hours (1650 days) on each side, not the ten years (87600 hours)
    its comment and the specification state. *)
Theorem String_of_default_parameters Format_RFC3339 now1 now2 :
  SearchParameters_String Format_RFC3339 (NewSearchParameters now1 now2)
  = "type=action&after=" ++ Format_RFC3339 (UTC (Add now2 (- defaultSearchPeriod)%Z))
    ++ "&before=" ++ Format_RFC3339 (UTC (Add now1 defaultSearchPeriod)) ++ "&limit=100"
  /\ defaultSearchPeriod = (1650 * 24 * Hour)%Z
  /\ defaultSearchPeriod <> (87600 * Hour)%Z.
Proof.
  split; [|split; [reflexivity | discriminate]].
  unfold SearchParameters_String. cbn [Type_ After Before NewSearchParameters].
  change (format_f0 100) with "100".
  cbn -[UTC Add defaultSearchPeriod]. rewrite !sapp_assoc. reflexivity.
Qed.

(** C10: Report and Target are read by no operation: changing them leaves
    String(), the resolver and the four searches unchanged. *)
Theorem Report_Target_unread Fmt PF u64 ss (Cmd Act Ag Inv : Type) p r t fa now1 now2 :
  SearchParameters_String Fmt (with_report_target p r t) = SearchParameters_String Fmt p
  /\ makeIDsFromParams PF (with_report_target p r t) = makeIDsFromParams PF p
  /\ SearchCommands PF u64 ss Cmd (with_report_target p r t) fa now1 now2
     = SearchCommands PF u64 ss Cmd p fa now1 now2
  /\ SearchActions PF u64 Act (with_report_target p r t) now1 now2
     = SearchActions PF u64 Act p now1 now2
  /\ SearchAgents PF u64 Ag (with_report_target p r t) now1 now2
     = SearchAgents PF u64 Ag p now1 now2
  /\ SearchInvestigators PF u64 Inv (with_report_target p r t) now1 now2
     = SearchInvestigators PF u64 Inv p now1 now2.
Proof. repeat split. Qed.

(** C4 (as amended): when a filter field is at its sentinel, no block that
    tests that field is active in any of the four builders, so none of its
    clauses or values reaches the query. The found-anything clause of
    SearchCommands is the exception: when requested it is always active and
    binds the ActionID range resolved by makeIDsFromParams, which is
    [0, 2^53-1] when ActionID is the sentinel. *)
Theorem sentinel_fields_unfiltered PF ss p ids fa now1 now2 F :
  at_sentinel p F = true ->
  Forall (fun b => field b <> F) (active (commands_blocks ss p ids fa now1 now2))
  /\ Forall (fun b => field b <> F) (active (actions_blocks p ids now1 now2 ++ [threat_block p]))
  /\ Forall (fun b => field b <> F) (active (agents_blocks p ids now1 now2))
  /\ Forall (fun b => field b <> F) (active (investigators_blocks p ids now1 now2))
  /\ (makeIDsFromParams PF p = (ids, None) -> fa = true ->
      In (mkBlock true FFoundAnything foundanything_clause
            [VString ss; VFloat (minActionID ids); VFloat (maxActionID ids);
             VBool (FoundAnything p)] 4 [])
         (active (commands_blocks ss p ids fa now1 now2))
      /\ (ActionID p = INF ->
          minActionID ids = 0%float /\ maxActionID ids = MAXFLOAT64
          /\ In (mkBlock true FFoundAnything foundanything_clause
                   [VString ss; VFloat 0%float; VFloat MAXFLOAT64; VBool (FoundAnything p)] 4 [])
                (active (commands_blocks ss p ids fa now1 now2)))).
Proof.
  intros H. split; [|split; [|split; [|split]]].
  5: { intros Hids ->.
       assert (Hin : In (mkBlock true FFoundAnything foundanything_clause
                          [VString ss; VFloat (minActionID ids); VFloat (maxActionID ids);
                           VBool (FoundAnything p)] 4 [])
                        (active (commands_blocks ss p ids true now1 now2))).
       { apply filter_In. split; [|reflexivity].
         unfold commands_blocks. do 10 apply in_cons. apply in_eq. }
       split; [exact Hin|]. intros HA.
       destruct (makeIDs_none PF p ids Hids) as (RA & _).
       rewrite HA, resolve_INF in RA. injection RA as Hmin Hmax.
       rewrite <- Hmin, <- Hmax in Hin |- *. auto. }
  all: apply active_field_free;
    unfold commands_blocks, actions_blocks, threat_block, agents_blocks, investigators_blocks;
    cbn [app];
    destruct F; cbn [at_sentinel] in H; try discriminate H;
    blocks_guard_off ltac:(unfold neq; rewrite H; reflexivity).
Qed.

(** C5: a Before (After) within one hour of the default boundary, taken
    defaultSearchPeriod or any longer period away from the builder's clock
    reading, activates no Before (After) block in any builder: no time
    clause, no timestamp value. *)
Theorem time_window_near_default ss p ids fa now1 now2 :
  (forall D, (defaultSearchPeriod <= D)%Z ->
     (Z.abs (wall (Before p) - (wall now1 + D)) <= Hour)%Z ->
     Forall (fun b => field b <> FBefore) (active (commands_blocks ss p ids fa now1 now2))
     /\ Forall (fun b => field b <> FBefore)
          (active (actions_blocks p ids now1 now2 ++ [threat_block p]))
     /\ Forall (fun b => field b <> FBefore) (active (agents_blocks p ids now1 now2))
     /\ Forall (fun b => field b <> FBefore) (active (investigators_blocks p ids now1 now2)))
  /\ (forall D, (defaultSearchPeriod <= D)%Z ->
     (Z.abs (wall (After p) - (wall now2 - D)) <= Hour)%Z ->
     Forall (fun b => field b <> FAfter) (active (commands_blocks ss p ids fa now1 now2))
     /\ Forall (fun b => field b <> FAfter)
          (active (actions_blocks p ids now1 now2 ++ [threat_block p]))
     /\ Forall (fun b => field b <> FAfter) (active (agents_blocks p ids now1 now2))
     /\ Forall (fun b => field b <> FAfter) (active (investigators_blocks p ids now1 now2))).
Proof.
  split; intros D HD HT.
  - assert (G : before_guard p now1 = false).
    { unfold before_guard, Before_, Add. cbn [wall]. apply Z.ltb_ge.
      unfold defaultSearchPeriod, Hour in *. lia. }
    split; [|split; [|split]]; apply active_field_free;
    unfold commands_blocks, actions_blocks, threat_block, agents_blocks, investigators_blocks;
    cbn [app]; blocks_guard_off ltac:(exact G).
  - assert (G : after_guard p now2 = false).
    { unfold after_guard, After_, Add. cbn [wall]. apply Z.ltb_ge.
      unfold defaultSearchPeriod, Hour in *. lia. }
    split; [|split; [|split]]; apply active_field_free;
    unfold commands_blocks, actions_blocks, threat_block, agents_blocks, investigators_blocks;
    cbn [app]; blocks_guard_off ltac:(exact G).
Qed.

(** C6: with ActionID at its sentinel and the resolver succeeding,
    requesting found-anything adds to the SearchCommands query the
    found-anything clause (status = success, action id in the resolved
    range, a result element whose foundanything field equals the requested
    boolean) on the four slots after the preceding values, and binds exactly
    four more values there: the success status, 0, 2^53-1 and FoundAnything. *)
Theorem found_anything_clause_binds PF u64 ss (Cmd : Type) p now1 now2 :
  ActionID p = INF -> snd (makeIDsFromParams PF p) = None ->
  exists q1 vs1 q0 vs0 pre post,
    SearchCommands PF u64 ss Cmd p true now1 now2 = Issued q1 vs1
    /\ SearchCommands PF u64 ss Cmd p false now1 now2 = Issued q0 vs0
    /\ vs1 = (pre ++ [VString ss; VFloat 0; VFloat MAXFLOAT64; VBool (FoundAnything p)] ++ post)%list
    /\ vs0 = (pre ++ post)%list
    /\ contains (foundanything_clause (length pre + 1)) q1
    /\ placeholders (foundanything_clause (length pre + 1)) = seq (length pre + 1) 4.
Proof.
  intros HA HE.
  destruct (makeIDsFromParams PF p) as [ids e] eqn:E. cbn in HE. subst e.
  destruct (makeIDs_none PF p ids E) as (RA & _).
  rewrite HA, resolve_INF in RA. injection RA as Hmin Hmax.
  destruct (searches_issued PF u64 ss Cmd Cmd Cmd Cmd p ids true now1 now2 E) as (-> & _).
  destruct (searches_issued PF u64 ss Cmd Cmd Cmd Cmd p ids false now1 now2 E) as (-> & _).
  pose proof (commands_blocks_split ss p ids true now1 now2) as E1.
  pose proof (commands_blocks_split ss p ids false now1 now2) as E0.
  assert (Hwf := commands_blocks_wf ss p ids false now1 now2).
  rewrite E0 in Hwf. apply Forall_app in Hwf as [Hwf _].
  set (pre := firstn 10 (commands_blocks ss p ids false now1 now2)) in *.
  clearbody pre.
  unfold commands_query. rewrite E1, E0, !run_blocks_app.
  set (l := run_blocks (init_locals commands_select) pre).
  assert (Hl : length (vals l) = valctr l).
  { destruct (run_blocks_inv _ Hwf (init_locals commands_select) eq_refl)
      as (_&_&_&_&Ln&_). exact Ln. }
  clearbody l. rewrite <- Hmin, <- Hmax.
  unfold run_blocks. cbn [fold_left]. unfold exec_block, threat_block. cbn [guard].
  destruct (neq (ThreatFamily p) PCT); cbn [sql vals valctr flags args clause slots sets];
  [replace (Nat.ltb 0 (valctr l + 4)) with true by (symmetry; apply Nat.ltb_lt; lia)|].
  - eexists _, _, _, _, (vals l), ([VString (ThreatFamily p)]
                             ++ [VUint64 (u64 (Limit p)); VUint64 (u64 (Offset p))])%list.
    split; [reflexivity|]. split; [reflexivity|].
    split; [rewrite <- ?app_assoc; reflexivity|]. split; [rewrite <- ?app_assoc; reflexivity|].
    rewrite Hl. split.
    + exists (if Nat.ltb 0 (valctr l) then sql l ++ " AND " else sql l).
      exists (" AND " ++ threat_clause (valctr l + 4 + 1)
              ++ limit_offset commands_tail (valctr l + 4 + 1)).
      rewrite !sapp_assoc. reflexivity.
    + rewrite foundanything_clause_ph. cbn [seq]. repeat f_equal; lia.
  - eexists _, _, _, _, (vals l), [VUint64 (u64 (Limit p)); VUint64 (u64 (Offset p))].
    split; [reflexivity|]. split; [reflexivity|].
    split; [rewrite <- ?app_assoc; reflexivity|]. split; [rewrite <- ?app_assoc; reflexivity|].
    rewrite Hl. split.
    + exists (if Nat.ltb 0 (valctr l) then sql l ++ " AND " else sql l).
      exists (limit_offset commands_tail (valctr l + 4)).
      rewrite !sapp_assoc. reflexivity.
    + rewrite foundanything_clause_ph. cbn [seq]. repeat f_equal; lia.
Qed.

(** C7: with a Status filter, the query SearchActions issues compares the
    column action.status, of a table alias the query never declares: the
    only tables it names are actions (FROM) and the joined ones. *)
Theorem actions_status_alias PF u64 (Act : Type) p now1 now2 :
  Status p <> PCT -> snd (makeIDsFromParams PF p) = None ->
  exists q vs k,
    SearchActions PF u64 Act p now1 now2 = Issued q vs
    /\ contains ("action.status ILIKE $" ++ itoa k) q
    /\ ~ In "action" ("actions" :: joined_tables q).
Proof.
  intros HS HE.
  destruct (makeIDsFromParams PF p) as [ids e] eqn:E. cbn in HE. subst e.
  destruct (searches_issued PF u64 "" Act Act Act Act p ids false now1 now2 E) as (_ & -> & _).
  assert (C : exists k, contains ("action.status ILIKE $" ++ itoa k)
                                 (fst (actions_query u64 p ids now1 now2))).
  { unfold actions_query. cbn [fst].
    set (J := actions_join _).
    rewrite select_query_split, <- run_blocks_app.
    rewrite (actions_blocks_split p ids now1 now2), <- app_assoc, run_blocks_app, <- app_comm_cons,
      run_blocks_cons.
    set (l2 := run_blocks (init_locals "") (firstn 2 (actions_blocks p ids now1 now2))).
    set (SB := mkBlock (neq (Status p) PCT) FStatus (ilike_clause "action.status")
                 [VString (Status p)] 1 []).
    assert (HS2 : sql (exec_block l2 SB)
                  = (if Nat.ltb 0 (valctr l2) then sql l2 ++ " AND " else sql l2)
                    ++ ilike_clause "action.status" (valctr l2 + 1)).
    { unfold exec_block, SB. cbn [guard].
      replace (neq (Status p) PCT) with true
        by (unfold neq; symmetry; apply negb_true_iff, String.eqb_neq, HS).
      reflexivity. }
    destruct (run_blocks_sql_ext (exec_block l2 SB)
                (skipn 3 (actions_blocks p ids now1 now2) ++ [threat_block p])) as [W HW].
    rewrite HW, HS2. exists (valctr l2 + 1).
    apply contains_app_l, contains_app_r, contains_app_r, contains_app_l.
    unfold ilike_clause. rewrite <- sapp_assoc. apply contains_self. }
  destruct C as [k C].
  exists (fst (actions_query u64 p ids now1 now2)), (snd (actions_query u64 p ids now1 now2)), k.
  split; [reflexivity|]. split; [exact C|].
  rewrite actions_joined_tables. unfold spec_actions_joins.
  destruct (is_filter_set p FAgentID), (is_filter_set p FAgentName), (is_filter_set p FCommandID),
    (is_filter_set p FInvestigatorID), (is_filter_set p FInvestigatorName);
  cbn; intuition discriminate.
Qed.

(** C8: each builder uses the slots $1 .. $N of its values in order: its
    active clauses carry consecutive slots from $1 (two for a range, one for
    a pattern or a time bound, four for found-anything), each with as many
    values as slots, and $N-1, $N are bound to Limit and Offset. *)
Theorem queries_use_consecutive_slots u64 ss p ids fa now1 now2 :
  consecutive_slots (fst (commands_query u64 ss p ids fa now1 now2))
    (snd (commands_query u64 ss p ids fa now1 now2)) (commands_blocks ss p ids fa now1 now2)
    (VUint64 (u64 (Limit p))) (VUint64 (u64 (Offset p)))
  /\ consecutive_slots (fst (actions_query u64 p ids now1 now2))
       (snd (actions_query u64 p ids now1 now2)) (actions_blocks p ids now1 now2 ++ [threat_block p])
       (VUint64 (u64 (Limit p))) (VUint64 (u64 (Offset p)))
  /\ consecutive_slots (fst (agents_query u64 p ids now1 now2))
       (snd (agents_query u64 p ids now1 now2)) (agents_blocks p ids now1 now2)
       (VUint64 (u64 (Limit p))) (VUint64 (u64 (Offset p)))
  /\ consecutive_slots (fst (investigators_query u64 p ids now1 now2))
       (snd (investigators_query u64 p ids now1 now2)) (investigators_blocks p ids now1 now2)
       (VUint64 (u64 (Limit p))) (VUint64 (u64 (Offset p))).
Proof.
  split; [|split; [|split]].
  - unfold commands_query. cbn [fst snd].
    refine (query_layout "" commands_select _ commands_tail _ _
              (commands_blocks_wf ss p ids fa now1 now2) _ _ _ _ _);
    [reflexivity | vm_compute; reflexivity | vm_compute; reflexivity | reflexivity | discriminate].
  - unfold actions_query. cbn [fst snd]. rewrite select_query_split, <- run_blocks_app.
    refine (query_layout _ "" _ actions_tail _ _ (actions_blocks_wf p ids now1 now2) _ _ _ _ _);
    [| reflexivity | vm_compute; reflexivity | reflexivity | discriminate].
    unfold actions_join. destruct (is_set _ joinCommand), (is_set _ joinAgent),
      (is_set _ joinInvestigator); vm_compute; reflexivity.
  - unfold agents_query. cbn [fst snd]. rewrite select_query_split.
    refine (query_layout _ "" _ agents_tail _ _ (agents_blocks_wf p ids now1 now2) _ _ _ _ _);
    [| reflexivity | vm_compute; reflexivity | reflexivity | discriminate].
    unfold agents_join. destruct (is_set _ joinCommand), (is_set _ joinAction),
      (is_set _ joinInvestigator); vm_compute; reflexivity.
  - unfold investigators_query. cbn [fst snd]. rewrite select_query_split.
    refine (query_layout _ "" _ investigators_tail _ _ (investigators_blocks_wf p ids now1 now2)
              _ _ _ _ _);
    [| reflexivity | vm_compute; reflexivity | reflexivity | discriminate].
    unfold investigators_join. destruct (is_set _ joinAction), (is_set _ joinCommand),
      (is_set _ joinAgent); vm_compute; reflexivity.
Qed.

(** C9: the resolver checks no bound: when every identifier is the sentinel
    or parses, it succeeds, and each parsed identifier gets the range
    [v, v] for its parsed value v, whatever v is (negative, fractional,
    above 2^53-1). *)
Theorem resolver_no_bounds PF p :
  (ActionID p = INF \/ snd (PF (ActionID p)) = None) ->
  (CommandID p = INF \/ snd (PF (CommandID p)) = None) ->
  (AgentID p = INF \/ snd (PF (AgentID p)) = None) ->
  (InvestigatorID p = INF \/ snd (PF (InvestigatorID p)) = None) ->
  exists ids, makeIDsFromParams PF p = (ids, None)
    /\ (ActionID p <> INF ->
        minActionID ids = fst (PF (ActionID p)) /\ maxActionID ids = fst (PF (ActionID p)))
    /\ (CommandID p <> INF ->
        minCommandID ids = fst (PF (CommandID p)) /\ maxCommandID ids = fst (PF (CommandID p)))
    /\ (AgentID p <> INF ->
        minAgentID ids = fst (PF (AgentID p)) /\ maxAgentID ids = fst (PF (AgentID p)))
    /\ (InvestigatorID p <> INF ->
        minInvID ids = fst (PF (InvestigatorID p)) /\ maxInvID ids = fst (PF (InvestigatorID p))).
Proof.
  intros HA HC HG HI.
  assert (HN : snd (makeIDsFromParams PF p) = None).
  { apply makeIDs_error_iff. rewrite !resolve_none. auto. }
  destruct (makeIDsFromParams PF p) as [ids e] eqn:E. cbn in HN. subst e.
  destruct (makeIDs_none PF p ids E) as (RA & RC & RG & RI).
  exists ids. split; [reflexivity|].
  split; [|split; [|split]].
  - exact (resolve_range_parsed PF _ _ _ HA RA).
  - exact (resolve_range_parsed PF _ _ _ HC RC).
  - exact (resolve_range_parsed PF _ _ _ HG RG).
  - exact (resolve_range_parsed PF _ _ _ HI RI).
Qed.

(** * Witnesses and counterexample at concrete inputs *)

(** C2 at ParseFloat_ex: "42" resolves to [42, 42]; AgentID "abc" makes
    SearchAgents return the parse error with no agents. *)
Lemma resolver_ranges_and_errors_witness :
  resolve ParseFloat_ex "42" = (42%float, 42%float, None)
  /\ SearchAgents ParseFloat_ex uint64_ex unit p_abc t0 t0
     = Returned [] "strconv.ParseFloat: parsing abc: invalid syntax".
Proof.
  destruct (resolver_ranges_and_errors ParseFloat_ex uint64_ex StatusSuccess_ex unit unit unit unit)
    as (_ & _ & Hok & _ & _ & Herr).
  split.
  - apply Hok; [discriminate | reflexivity].
  - destruct (Herr p_abc "strconv.ParseFloat: parsing abc: invalid syntax" false t0 t0)
      as (_ & _ & H & _); [reflexivity | exact H].
Defined.

(** C4: with the default parameters (ActionID at its sentinel) and
    found-anything requested, SearchCommands compares actions.id with $2 and
    $3 and binds them to 0 and 2^53-1, the range of the sentinel. *)
Lemma sentinel_ActionID_compared :
  ActionID p0 = INF
  /\ SearchCommands ParseFloat_ex uint64_ex StatusSuccess_ex unit p0 true t0 t0
     = Issued (commands_select ++ foundanything_clause 1 ++ limit_offset commands_tail 4)
         [VString StatusSuccess_ex; VFloat 0; VFloat MAXFLOAT64; VBool false;
          VUint64 100; VUint64 0].
Proof. split; [reflexivity | vm_compute; reflexivity]. Qed.

(** C4 (amended) with the ActionID field at its sentinel, AgentID 42, an
    ActionName pattern, a Status filter and the found-anything restriction. *)
Lemma sentinel_fields_unfiltered_witness :
  at_sentinel p_mixed FActionID = true
  /\ makeIDsFromParams ParseFloat_ex p_mixed = (ids_mixed, None)
  /\ Forall (fun b => field b <> FActionID)
       (active (actions_blocks p_mixed ids_mixed t0 t0 ++ [threat_block p_mixed]))
  /\ In (mkBlock true FFoundAnything foundanything_clause
           [VString StatusSuccess_ex; VFloat 0%float; VFloat MAXFLOAT64; VBool true] 4 [])
        (active (commands_blocks StatusSuccess_ex p_mixed ids_mixed true t0 t0)).
Proof.
  assert (H : at_sentinel p_mixed FActionID = true) by reflexivity.
  assert (Hids : makeIDsFromParams ParseFloat_ex p_mixed = (ids_mixed, None)) by reflexivity.
  destruct (sentinel_fields_unfiltered ParseFloat_ex StatusSuccess_ex p_mixed ids_mixed true t0 t0
              FActionID H) as (_ & W & _ & _ & X).
  destruct (X Hids eq_refl) as (_ & Y).
  destruct (Y eq_refl) as (_ & _ & Z).
  split; [exact H|]. split; [exact Hids|]. split; [exact W|]. exact Z.
Defined.

(** C5 at the default parameters, whose bounds sit on the boundary. *)
Lemma time_window_near_default_witness :
  Forall (fun b => field b <> FBefore)
    (active (commands_blocks StatusSuccess_ex p0 ids_zero false t0 t0))
  /\ Forall (fun b => field b <> FAfter) (active (agents_blocks p0 ids_zero t0 t0)).
Proof.
  destruct (time_window_near_default StatusSuccess_ex p0 ids_zero false t0 t0) as [HB HA].
  split.
  - destruct (HB defaultSearchPeriod) as (W & _); [lia | vm_compute; discriminate | exact W].
  - destruct (HA defaultSearchPeriod) as (_ & _ & W & _); [lia | vm_compute; discriminate | exact W].
Defined.

(** C6 at the default parameters. *)
Lemma found_anything_clause_binds_witness :
  exists q1 vs1 q0 vs0 pre post,
    SearchCommands ParseFloat_ex uint64_ex StatusSuccess_ex unit p0 true t0 t0 = Issued q1 vs1
    /\ SearchCommands ParseFloat_ex uint64_ex StatusSuccess_ex unit p0 false t0 t0 = Issued q0 vs0
    /\ vs1 = (pre ++ [VString StatusSuccess_ex; VFloat 0; VFloat MAXFLOAT64;
                      VBool (FoundAnything p0)] ++ post)%list
    /\ vs0 = (pre ++ post)%list
    /\ contains (foundanything_clause (length pre + 1)) q1
    /\ placeholders (foundanything_clause (length pre + 1)) = seq (length pre + 1) 4.
Proof.
  apply (found_anything_clause_binds ParseFloat_ex uint64_ex StatusSuccess_ex unit p0 t0 t0);
  reflexivity.
Defined.

(** C7 at the default parameters with Status "completed". *)
Lemma actions_status_alias_witness :
  exists q vs k,
    SearchActions ParseFloat_ex uint64_ex unit p_status t0 t0 = Issued q vs
    /\ contains ("action.status ILIKE $" ++ itoa k) q
    /\ ~ In "action" ("actions" :: joined_tables q).
Proof.
  apply (actions_status_alias ParseFloat_ex uint64_ex unit p_status t0 t0);
  [discriminate | reflexivity].
Defined.

(** C9 at ActionID 1e300 (above 2^53-1) and AgentID -2.5. *)
Lemma resolver_no_bounds_witness :
  exists ids, makeIDsFromParams ParseFloat_ex p_big = (ids, None)
    /\ minActionID ids = BIG /\ maxActionID ids = BIG
    /\ PrimFloat.ltb MAXFLOAT64 BIG = true
    /\ minAgentID ids = (-2.5)%float /\ maxAgentID ids = (-2.5)%float.
Proof.
  destruct (resolver_no_bounds ParseFloat_ex p_big) as (ids & E & HA & _ & HG & _);
    [right; reflexivity | left; reflexivity | right; reflexivity | left; reflexivity |].
  exists ids. split; [exact E|].
  destruct HA as [HA1 HA2]; [discriminate|].
  destruct HG as [HG1 HG2]; [discriminate|].
  rewrite HA1, HA2, HG1, HG2. repeat split; vm_compute; reflexivity.
Defined.

(** * Reading the rows *)

Section RowFacts.

Variable ParseFloat : string -> float * option string.
Variable uint64_of_float64 : float -> Z.
Variable StatusSuccess : string.
Variables Command Action Agent Investigator : Type.
Variable Row : Type.
Variable Prepare : string -> option string.
Variable Query : string -> list value -> (list Row * option string) * option string.
Variable ScanCommand :
  Row -> (Command * (bytes * bytes * bytes * bytes * bytes * bytes * bytes)) * option string.
Variable ScanAction : Row -> (Action * (bytes * bytes * bytes * bytes)) * option string.
Variable ScanAgent : Row -> Agent * option string.
Variable ScanInvestigator : Row -> Investigator * option string.
Variable UnmarshalCommand : bytes -> CommandDest -> Command -> Command * option string.
Variable UnmarshalAction : bytes -> ActionDest -> Action -> Action * option string.
Variables (ID ActionCounters : Type).
Variable Action_ID : Action -> ID.
Variable Command_Action : Command -> Action.
Variable set_Counters : Action -> ActionCounters -> Action.
Variable set_Investigators : Action -> list Investigator -> Action.
Variable set_Action : Command -> Action -> Command.
Variable GetActionCounters : ID -> ActionCounters * option string.
Variable InvestigatorByActionID : ID -> list Investigator * option string.

Local Abbreviation db_SearchCommands' :=
  (db_SearchCommands ParseFloat uint64_of_float64 StatusSuccess Command Action Investigator Row
     Prepare Query ScanCommand UnmarshalCommand ID ActionCounters Action_ID Command_Action
     set_Counters set_Investigators set_Action GetActionCounters InvestigatorByActionID).
Local Abbreviation db_SearchActions' :=
  (db_SearchActions ParseFloat uint64_of_float64 Action Investigator Row Prepare Query ScanAction
     UnmarshalAction ID ActionCounters Action_ID set_Counters set_Investigators
     GetActionCounters InvestigatorByActionID).
Local Abbreviation db_SearchAgents' :=
  (db_SearchAgents ParseFloat uint64_of_float64 Agent Row Prepare Query ScanAgent).
Local Abbreviation db_SearchInvestigators' :=
  (db_SearchInvestigators ParseFloat uint64_of_float64 Investigator Row Prepare Query
     ScanInvestigator).
Local Abbreviation command_of_row' :=
  (command_of_row Command Action Investigator Row ScanCommand UnmarshalCommand ID ActionCounters
     Action_ID Command_Action set_Counters set_Investigators set_Action GetActionCounters
     InvestigatorByActionID).
Local Abbreviation action_of_row' :=
  (action_of_row Action Investigator Row ScanAction UnmarshalAction ID ActionCounters Action_ID
     set_Counters set_Investigators GetActionCounters InvestigatorByActionID).
Local Abbreviation agent_of_row' := (agent_of_row Agent Row ScanAgent).
Local Abbreviation investigator_of_row' := (investigator_of_row Investigator Row ScanInvestigator).

Lemma next_rows_all {A : Type} (of_row : Row -> A + string) records rows xs :
  map of_row rows = map inl xs -> next_rows Row of_row records rows = ((records ++ xs)%list, None).
Proof.
  revert records xs. induction rows as [|r rows IH]; intros records [|x xs] H;
    cbn in H; try discriminate H.
  - cbn. now rewrite app_nil_r.
  - injection H as H1 H2. cbn. rewrite H1, (IH _ _ H2). now rewrite <- app_assoc.
Qed.

Lemma next_rows_fail {A : Type} (of_row : Row -> A + string) records pre r post xs e :
  map of_row pre = map inl xs -> of_row r = inr e ->
  next_rows Row of_row records ((pre ++ r :: post)%list) = ((records ++ xs)%list, Some e).
Proof.
  revert records xs. induction pre as [|r' pre IH]; intros records [|x xs] H Hr;
    cbn in H; try discriminate H.
  - cbn. rewrite Hr. now rewrite app_nil_r.
  - injection H as H1 H2. cbn. rewrite H1, (IH _ _ H2 Hr). now rewrite <- app_assoc.
Qed.

Lemma fetch_all {A : Type} entity (of_row : Row -> A + string) q vs rows rows_err xs :
  Prepare q = None -> Query q vs = ((rows, rows_err), None) -> map of_row rows = map inl xs ->
  fetch Row Prepare Query entity of_row q vs = (xs, None).
Proof.
  intros HP HQ HR. unfold fetch. rewrite HP, HQ, (next_rows_all of_row [] rows xs HR).
  reflexivity.
Qed.

Lemma fetch_fail {A : Type} entity (of_row : Row -> A + string) q vs pre r post rows_err xs e :
  Prepare q = None -> Query q vs = (((pre ++ r :: post)%list, rows_err), None) ->
  map of_row pre = map inl xs -> of_row r = inr e ->
  fetch Row Prepare Query entity of_row q vs = (xs, Some e).
Proof.
  intros HP HQ HR Hr. unfold fetch. rewrite HP, HQ, (next_rows_fail of_row [] pre r post xs e HR Hr).
  reflexivity.
Qed.

Lemma fetch_prepare_error {A : Type} entity (of_row : Row -> A + string) q vs e :
  Prepare q = Some e ->
  fetch Row Prepare Query entity of_row q vs
  = ([], Some ("Error while preparing search statement: '" ++ e ++ "' in '" ++ q ++ "'")).
Proof. intros HP. unfold fetch. now rewrite HP. Qed.

Lemma fetch_query_error {A : Type} entity (of_row : Row -> A + string) q vs r e :
  Prepare q = None -> Query q vs = (r, Some e) ->
  fetch Row Prepare Query entity of_row q vs
  = ([], Some ("Error while finding " ++ entity ++ ": '" ++ e ++ "'")).
Proof.
  intros HP HQ. unfold fetch. rewrite HP, HQ. destruct r. unfold wrap. now rewrite sapp_assoc.
Qed.

Lemma db_searches_issued p ids fa now1 now2 :
  makeIDsFromParams ParseFloat p = (ids, None) ->
  db_SearchCommands' p fa now1 now2
    = fetch Row Prepare Query "commands" command_of_row'
        (fst (commands_query uint64_of_float64 StatusSuccess p ids fa now1 now2))
        (snd (commands_query uint64_of_float64 StatusSuccess p ids fa now1 now2))
  /\ db_SearchActions' p now1 now2
    = fetch Row Prepare Query "actions" action_of_row'
        (fst (actions_query uint64_of_float64 p ids now1 now2))
        (snd (actions_query uint64_of_float64 p ids now1 now2))
  /\ db_SearchAgents' p now1 now2
    = fetch Row Prepare Query "agents" agent_of_row'
        (fst (agents_query uint64_of_float64 p ids now1 now2))
        (snd (agents_query uint64_of_float64 p ids now1 now2))
  /\ db_SearchInvestigators' p now1 now2
    = fetch Row Prepare Query "investigators" investigator_of_row'
        (fst (investigators_query uint64_of_float64 p ids now1 now2))
        (snd (investigators_query uint64_of_float64 p ids now1 now2)).
Proof.
  intros H.
  destruct (searches_issued ParseFloat uint64_of_float64 StatusSuccess Command Action Agent
              Investigator p ids fa now1 now2 H) as (HC & HA & HG & HI).
  unfold db_SearchCommands, db_SearchActions, db_SearchAgents, db_SearchInvestigators.
  rewrite HC, HA, HG, HI. auto.
Qed.

(** X1: once the identifiers parse, the statement is prepared and the rows
    are read without a row error, each search returns the records of all
    rows, in row order, and no error, whatever [rows.Err()] reports: the
    wrapped iteration error is assigned to the [err] the final [if]
    declares, not to the returned one. *)
Theorem searches_drop_rows_Err p ids fa now1 now2 :
  makeIDsFromParams ParseFloat p = (ids, None) ->
  (forall q vs rows rows_err records,
     commands_query uint64_of_float64 StatusSuccess p ids fa now1 now2 = (q, vs) ->
     Prepare q = None -> Query q vs = ((rows, rows_err), None) ->
     map command_of_row' rows = map inl records ->
     db_SearchCommands' p fa now1 now2 = (records, None))
  /\ (forall q vs rows rows_err records,
     actions_query uint64_of_float64 p ids now1 now2 = (q, vs) ->
     Prepare q = None -> Query q vs = ((rows, rows_err), None) ->
     map action_of_row' rows = map inl records ->
     db_SearchActions' p now1 now2 = (records, None))
  /\ (forall q vs rows rows_err records,
     agents_query uint64_of_float64 p ids now1 now2 = (q, vs) ->
     Prepare q = None -> Query q vs = ((rows, rows_err), None) ->
     map agent_of_row' rows = map inl records ->
     db_SearchAgents' p now1 now2 = (records, None))
  /\ (forall q vs rows rows_err records,
     investigators_query uint64_of_float64 p ids now1 now2 = (q, vs) ->
     Prepare q = None -> Query q vs = ((rows, rows_err), None) ->
     map investigator_of_row' rows = map inl records ->
     db_SearchInvestigators' p now1 now2 = (records, None)).
Proof.
  intros H. destruct (db_searches_issued p ids fa now1 now2 H) as (HC & HA & HG & HI).
  repeat split; intros q vs rows rows_err records Eq HP HQ HR;
    [rewrite HC | rewrite HA | rewrite HG | rewrite HI]; rewrite Eq;
    exact (fetch_all _ _ q vs rows rows_err records HP HQ HR).
Qed.

(** X2: when a row fails (its scan, a json decoding or a lookup), each
    search stops there and returns the records of the rows before it, in
    row order, with the error of that row; the later rows are not read. *)
Theorem searches_return_records_before_failing_row p ids fa now1 now2 :
  makeIDsFromParams ParseFloat p = (ids, None) ->
  (forall q vs pre r post rows_err records e,
     commands_query uint64_of_float64 StatusSuccess p ids fa now1 now2 = (q, vs) ->
     Prepare q = None -> Query q vs = (((pre ++ r :: post)%list, rows_err), None) ->
     map command_of_row' pre = map inl records -> command_of_row' r = inr e ->
     db_SearchCommands' p fa now1 now2 = (records, Some e))
  /\ (forall q vs pre r post rows_err records e,
     actions_query uint64_of_float64 p ids now1 now2 = (q, vs) ->
     Prepare q = None -> Query q vs = (((pre ++ r :: post)%list, rows_err), None) ->
     map action_of_row' pre = map inl records -> action_of_row' r = inr e ->
     db_SearchActions' p now1 now2 = (records, Some e))
  /\ (forall q vs pre r post rows_err records e,
     agents_query uint64_of_float64 p ids now1 now2 = (q, vs) ->
     Prepare q = None -> Query q vs = (((pre ++ r :: post)%list, rows_err), None) ->
     map agent_of_row' pre = map inl records -> agent_of_row' r = inr e ->
     db_SearchAgents' p now1 now2 = (records, Some e))
  /\ (forall q vs pre r post rows_err records e,
     investigators_query uint64_of_float64 p ids now1 now2 = (q, vs) ->
     Prepare q = None -> Query q vs = (((pre ++ r :: post)%list, rows_err), None) ->
     map investigator_of_row' pre = map inl records -> investigator_of_row' r = inr e ->
     db_SearchInvestigators' p now1 now2 = (records, Some e)).
Proof.
  intros H. destruct (db_searches_issued p ids fa now1 now2 H) as (HC & HA & HG & HI).
  repeat split; intros q vs pre r post rows_err records e Eq HP HQ HR Hr;
    [rewrite HC | rewrite HA | rewrite HG | rewrite HI]; rewrite Eq;
    exact (fetch_fail _ _ q vs pre r post rows_err records e HP HQ HR Hr).
Qed.

(** X3: when preparing the statement fails, each search returns no record
    and an error that quotes the driver's error and the whole query text. *)
Theorem searches_prepare_error p ids fa now1 now2 :
  makeIDsFromParams ParseFloat p = (ids, None) ->
  (forall q vs e,
     commands_query uint64_of_float64 StatusSuccess p ids fa now1 now2 = (q, vs) ->
     Prepare q = Some e ->
     db_SearchCommands' p fa now1 now2
     = ([], Some ("Error while preparing search statement: '" ++ e ++ "' in '" ++ q ++ "'")))
  /\ (forall q vs e,
     actions_query uint64_of_float64 p ids now1 now2 = (q, vs) ->
     Prepare q = Some e ->
     db_SearchActions' p now1 now2
     = ([], Some ("Error while preparing search statement: '" ++ e ++ "' in '" ++ q ++ "'")))
  /\ (forall q vs e,
     agents_query uint64_of_float64 p ids now1 now2 = (q, vs) ->
     Prepare q = Some e ->
     db_SearchAgents' p now1 now2
     = ([], Some ("Error while preparing search statement: '" ++ e ++ "' in '" ++ q ++ "'")))
  /\ (forall q vs e,
     investigators_query uint64_of_float64 p ids now1 now2 = (q, vs) ->
     Prepare q = Some e ->
     db_SearchInvestigators' p now1 now2
     = ([], Some ("Error while preparing search statement: '" ++ e ++ "' in '" ++ q ++ "'"))).
Proof.
  intros H. destruct (db_searches_issued p ids fa now1 now2 H) as (HC & HA & HG & HI).
  repeat split; intros q vs e Eq HP;
    [rewrite HC | rewrite HA | rewrite HG | rewrite HI]; rewrite Eq;
    exact (fetch_prepare_error _ _ q vs e HP).
Qed.

(** X4: when running the prepared statement fails, each search returns no
    record and the error wrapped with the name of what it searches. *)
Theorem searches_query_error p ids fa now1 now2 :
  makeIDsFromParams ParseFloat p = (ids, None) ->
  (forall q vs r e,
     commands_query uint64_of_float64 StatusSuccess p ids fa now1 now2 = (q, vs) ->
     Prepare q = None -> Query q vs = (r, Some e) ->
     db_SearchCommands' p fa now1 now2 = ([], Some ("Error while finding commands: '" ++ e ++ "'")))
  /\ (forall q vs r e,
     actions_query uint64_of_float64 p ids now1 now2 = (q, vs) ->
     Prepare q = None -> Query q vs = (r, Some e) ->
     db_SearchActions' p now1 now2 = ([], Some ("Error while finding actions: '" ++ e ++ "'")))
  /\ (forall q vs r e,
     agents_query uint64_of_float64 p ids now1 now2 = (q, vs) ->
     Prepare q = None -> Query q vs = (r, Some e) ->
     db_SearchAgents' p now1 now2 = ([], Some ("Error while finding agents: '" ++ e ++ "'")))
  /\ (forall q vs r e,
     investigators_query uint64_of_float64 p ids now1 now2 = (q, vs) ->
     Prepare q = None -> Query q vs = (r, Some e) ->
     db_SearchInvestigators' p now1 now2
     = ([], Some ("Error while finding investigators: '" ++ e ++ "'"))).
Proof.
  intros H. destruct (db_searches_issued p ids fa now1 now2 H) as (HC & HA & HG & HI).
  repeat split; intros q vs r e Eq HP HQ;
    [rewrite HC | rewrite HA | rewrite HG | rewrite HI]; rewrite Eq;
    exact (fetch_query_error _ _ q vs r e HP HQ).
Qed.

End RowFacts.

(** * Further properties of the builders *)

Lemma after_prefix_eq pre s r : after_prefix pre s = Some r -> s = pre ++ r.
Proof.
  revert s. induction pre as [|a pre IH]; intros s H; cbn in H.
  - now injection H as ->.
  - destruct s as [|c s]; [discriminate|].
    destruct (Ascii.eqb a c) eqn:E; [|discriminate].
    apply Ascii.eqb_eq in E as ->. cbn. f_equal. now apply IH.
Qed.

Lemma find_split_contains n s : find_split n s <> None -> contains n s.
Proof.
  induction s as [|c s IH]; intros H; cbn in H.
  - destruct (after_prefix n "") eqn:E; [|contradiction].
    exists "", s. cbn. now apply after_prefix_eq.
  - destruct (after_prefix n (String c s)) eqn:E.
    + exists "", s0. cbn. now apply after_prefix_eq.
    + destruct (find_split n s) as [[x y]|]; [|contradiction].
      destruct IH as (x' & y' & ->); [discriminate|].
      exists (String c x'), y'. reflexivity.
Qed.

(** X5: default parameters (NewSearchParameters at clock readings [t1] for
    Before and [t2] for After) searched within the hour, so that neither
    time-window clause is emitted: every search issues a query whose WHERE
    keyword is directly followed by GROUP BY, an empty condition, and binds
    only the limit and the offset. *)
Theorem default_parameters_empty_where PF u64 ss (Cmd Act Ag Inv : Type) t1 t2 now1 now2 :
  (wall now1 <= wall t1 + Hour)%Z -> (wall t2 <= wall now2 + Hour)%Z ->
  (exists q, SearchCommands PF u64 ss Cmd (NewSearchParameters t1 t2) false now1 now2
             = Issued q [VUint64 (u64 100%float); VUint64 (u64 0%float)]
             /\ contains "WHERE  GROUP BY" q)
  /\ (exists q, SearchActions PF u64 Act (NewSearchParameters t1 t2) now1 now2
             = Issued q [VUint64 (u64 100%float); VUint64 (u64 0%float)]
             /\ contains "WHERE  GROUP BY" q)
  /\ (exists q, SearchAgents PF u64 Ag (NewSearchParameters t1 t2) now1 now2
             = Issued q [VUint64 (u64 100%float); VUint64 (u64 0%float)]
             /\ contains "WHERE  GROUP BY" q)
  /\ (exists q, SearchInvestigators PF u64 Inv (NewSearchParameters t1 t2) now1 now2
             = Issued q [VUint64 (u64 100%float); VUint64 (u64 0%float)]
             /\ contains "WHERE  GROUP BY" q).
Proof.
  intros H1 H2.
  assert (HB : before_guard (NewSearchParameters t1 t2) now1 = false).
  { unfold before_guard, Before_. cbn. apply Z.ltb_ge.
    unfold defaultSearchPeriod, Hour in *. lia. }
  assert (HA : after_guard (NewSearchParameters t1 t2) now2 = false).
  { unfold after_guard, After_. cbn. apply Z.ltb_ge.
    unfold defaultSearchPeriod, Hour in *. lia. }
  unfold SearchCommands, commands_query, commands_blocks,
    SearchActions, actions_query, actions_blocks,
    SearchAgents, agents_query, agents_blocks,
    SearchInvestigators, investigators_query, investigators_blocks.
  rewrite !HB, !HA.
  split; [|split; [|split]]; (eexists; split; [reflexivity|]);
    apply find_split_contains; vm_compute; discriminate.
Qed.

(** X6: Type is read by no search: two parameter values that differ only
    in Type give the same ranges and the same query text and values in
    each of the four searches. *)
Theorem Type_unread_by_searches PF u64 ss (Cmd Act Ag Inv : Type) p ty fa now1 now2 :
  makeIDsFromParams PF (with_type p ty) = makeIDsFromParams PF p
  /\ SearchCommands PF u64 ss Cmd (with_type p ty) fa now1 now2
     = SearchCommands PF u64 ss Cmd p fa now1 now2
  /\ SearchActions PF u64 Act (with_type p ty) now1 now2 = SearchActions PF u64 Act p now1 now2
  /\ SearchAgents PF u64 Ag (with_type p ty) now1 now2 = SearchAgents PF u64 Ag p now1 now2
  /\ SearchInvestigators PF u64 Inv (with_type p ty) now1 now2
     = SearchInvestigators PF u64 Inv p now1 now2.
Proof. repeat split. Qed.

(** X7: FoundAnything is read only by the found-anything clause of
    SearchCommands: String() does not render it, and two parameter values
    that differ only in FoundAnything give the same ranges and the same
    query text and values in SearchActions, SearchAgents,
    SearchInvestigators, and SearchCommands without the restriction. *)
Theorem FoundAnything_read_only_with_restriction Fmt PF u64 ss (Cmd Act Ag Inv : Type)
    p b now1 now2 :
  SearchParameters_String Fmt (with_foundanything p b) = SearchParameters_String Fmt p
  /\ makeIDsFromParams PF (with_foundanything p b) = makeIDsFromParams PF p
  /\ SearchCommands PF u64 ss Cmd (with_foundanything p b) false now1 now2
     = SearchCommands PF u64 ss Cmd p false now1 now2
  /\ SearchActions PF u64 Act (with_foundanything p b) now1 now2
     = SearchActions PF u64 Act p now1 now2
  /\ SearchAgents PF u64 Ag (with_foundanything p b) now1 now2
     = SearchAgents PF u64 Ag p now1 now2
  /\ SearchInvestigators PF u64 Inv (with_foundanything p b) now1 now2
     = SearchInvestigators PF u64 Inv p now1 now2.
Proof. repeat split. Qed.

(** X8: makeIDsFromParams stops at the first identifier, in the order
    ActionID, CommandID, AgentID, InvestigatorID, that is not the sentinel
    and fails to parse, and reports its ParseFloat error (no error when there
    is none). The identifiers before it keep their resolved ranges, the
    failing one gets its parsed value as min and MAXFLOAT64 as max, and the
    ranges after it are left at 0: their strings are not parsed, the result
    depends on ParseFloat only through the identifiers up to the failing one. *)
Theorem makeIDs_first_failing_identifier PF p :
  snd (makeIDsFromParams PF p)
  = first_error (map (fun s => if neq s INF then snd (PF s) else None)
                     [ActionID p; CommandID p; AgentID p; InvestigatorID p])
  /\ (forall a1 a2 e,
        resolve PF (ActionID p) = (a1, a2, Some e) ->
        makeIDsFromParams PF p = (mkIDs a1 a2 0 0 0 0 0 0, Some e))
  /\ (forall a1 a2 c1 c2 e,
        resolve PF (ActionID p) = (a1, a2, None) ->
        resolve PF (CommandID p) = (c1, c2, Some e) ->
        makeIDsFromParams PF p = (mkIDs a1 a2 c1 c2 0 0 0 0, Some e))
  /\ (forall a1 a2 c1 c2 g1 g2 e,
        resolve PF (ActionID p) = (a1, a2, None) ->
        resolve PF (CommandID p) = (c1, c2, None) ->
        resolve PF (AgentID p) = (g1, g2, Some e) ->
        makeIDsFromParams PF p = (mkIDs a1 a2 c1 c2 g1 g2 0 0, Some e))
  /\ (forall a1 a2 c1 c2 g1 g2 i1 i2 ei,
        resolve PF (ActionID p) = (a1, a2, None) ->
        resolve PF (CommandID p) = (c1, c2, None) ->
        resolve PF (AgentID p) = (g1, g2, None) ->
        resolve PF (InvestigatorID p) = (i1, i2, ei) ->
        makeIDsFromParams PF p = (mkIDs a1 a2 c1 c2 g1 g2 i1 i2, ei)).
Proof.
  split.
  - unfold makeIDsFromParams, resolve. cbn [map first_error].
    repeat match goal with
    | |- context [neq ?s INF] => destruct (neq s INF)
    | |- context [PF ?s] => destruct (PF s) as [? [?|]]
    end; reflexivity.
  - unfold makeIDsFromParams.
    repeat split; intros *; intros RA; rewrite RA; try reflexivity;
      intros RC; rewrite RC; try reflexivity;
      intros RG; rewrite RG; try reflexivity;
      intros RI; rewrite RI; reflexivity.
Qed.

(** X8 at AgentID "abc": ActionID and CommandID keep [0, 2^53-1], AgentID
    fails, and InvestigatorID, the sentinel, is left at [0, 0]. *)
Lemma makeIDs_first_failing_identifier_witness :
  resolve ParseFloat_ex (ActionID p_abc) = (0%float, MAXFLOAT64, None)
  /\ resolve ParseFloat_ex (CommandID p_abc) = (0%float, MAXFLOAT64, None)
  /\ resolve ParseFloat_ex (AgentID p_abc)
     = (0%float, MAXFLOAT64, Some "strconv.ParseFloat: parsing abc: invalid syntax")
  /\ makeIDsFromParams ParseFloat_ex p_abc
     = (mkIDs 0 MAXFLOAT64 0 MAXFLOAT64 0 MAXFLOAT64 0 0,
        Some "strconv.ParseFloat: parsing abc: invalid syntax").
Proof.
  destruct (makeIDs_first_failing_identifier ParseFloat_ex p_abc) as (_ & _ & _ & HG & _).
  split; [reflexivity|]. split; [reflexivity|]. split; [reflexivity|].
  apply HG; reflexivity.
Defined.

(** * Witnesses of the properties above *)

(** X1 at the default parameters: three rows, then [rows.Err()] reports a
    broken connection; each search returns the three records and no error. *)
Lemma searches_drop_rows_Err_witness :
  makeIDsFromParams ParseFloat_ex p0 = (ids_default, None)
  /\ SearchCommands_ex Prepare_ok (Query_rows [1; 2; 3] (Some "driver: bad connection"))
       p0 false t0 t0 = ([1; 2; 3], None)
  /\ SearchActions_ex Prepare_ok (Query_rows [1; 2; 3] (Some "driver: bad connection"))
       p0 t0 t0 = ([1; 2; 3], None)
  /\ SearchAgents_ex Prepare_ok (Query_rows [1; 2; 3] (Some "driver: bad connection"))
       p0 t0 t0 = ([1; 2; 3], None)
  /\ SearchInvestigators_ex Prepare_ok (Query_rows [1; 2; 3] (Some "driver: bad connection"))
       p0 t0 t0 = ([1; 2; 3], None).
Proof.
  destruct (at_store_ex searches_drop_rows_Err Prepare_ok
              (Query_rows [1; 2; 3] (Some "driver: bad connection")) p0 ids_default false t0 t0)
    as (HC & HA & HG & HI); [reflexivity|].
  split; [reflexivity|].
  split; [|split; [|split]]; [eapply HC | eapply HA | eapply HG | eapply HI]; reflexivity.
Defined.

(** X2 at the default parameters: rows 1, 13 and 2, where row 13 fails to
    scan; each search returns the record of row 1 and the scan error. *)
Lemma searches_return_records_before_failing_row_witness :
  makeIDsFromParams ParseFloat_ex p0 = (ids_default, None)
  /\ SearchCommands_ex Prepare_ok (Query_rows [1; 13; 2] None) p0 false t0 t0
     = ([1], Some "Failed to retrieve command: 'sql: Scan error on column index 1'")
  /\ SearchActions_ex Prepare_ok (Query_rows [1; 13; 2] None) p0 t0 t0
     = ([1], Some "Error while retrieving action: 'sql: Scan error on column index 1'")
  /\ SearchAgents_ex Prepare_ok (Query_rows [1; 13; 2] None) p0 t0 t0
     = ([1], Some "Failed to retrieve agent data: 'sql: Scan error on column index 1'")
  /\ SearchInvestigators_ex Prepare_ok (Query_rows [1; 13; 2] None) p0 t0 t0
     = ([1], Some "Failed to retrieve investigator data: 'sql: Scan error on column index 1'").
Proof.
  destruct (at_store_ex searches_return_records_before_failing_row Prepare_ok
              (Query_rows [1; 13; 2] None) p0 ids_default false t0 t0)
    as (HC & HA & HG & HI); [reflexivity|].
  split; [reflexivity|].
  split; [|split; [|split]];
    [eapply (HC _ _ [1] 13 [2]) | eapply (HA _ _ [1] 13 [2])
    | eapply (HG _ _ [1] 13 [2]) | eapply (HI _ _ [1] 13 [2])]; reflexivity.
Defined.

(** X3 at the default parameters with a store that refuses every
    statement. *)
Lemma searches_prepare_error_witness :
  makeIDsFromParams ParseFloat_ex p0 = (ids_default, None)
  /\ SearchCommands_ex Prepare_bad Query_bad p0 false t0 t0
     = ([], Some ("Error while preparing search statement: '"
                  ++ "pq: syntax error at or near GROUP" ++ "' in '"
                  ++ fst (commands_query uint64_ex StatusSuccess_ex p0 ids_default false t0 t0)
                  ++ "'"))
  /\ SearchActions_ex Prepare_bad Query_bad p0 t0 t0
     = ([], Some ("Error while preparing search statement: '"
                  ++ "pq: syntax error at or near GROUP" ++ "' in '"
                  ++ fst (actions_query uint64_ex p0 ids_default t0 t0) ++ "'"))
  /\ SearchAgents_ex Prepare_bad Query_bad p0 t0 t0
     = ([], Some ("Error while preparing search statement: '"
                  ++ "pq: syntax error at or near GROUP" ++ "' in '"
                  ++ fst (agents_query uint64_ex p0 ids_default t0 t0) ++ "'"))
  /\ SearchInvestigators_ex Prepare_bad Query_bad p0 t0 t0
     = ([], Some ("Error while preparing search statement: '"
                  ++ "pq: syntax error at or near GROUP" ++ "' in '"
                  ++ fst (investigators_query uint64_ex p0 ids_default t0 t0) ++ "'")).
Proof.
  destruct (at_store_ex searches_prepare_error Prepare_bad Query_bad p0 ids_default false t0 t0)
    as (HC & HA & HG & HI); [reflexivity|].
  split; [reflexivity|].
  split; [|split; [|split]]; [eapply HC | eapply HA | eapply HG | eapply HI]; reflexivity.
Defined.

(** X4 at the default parameters with a store that cannot be reached. *)
Lemma searches_query_error_witness :
  makeIDsFromParams ParseFloat_ex p0 = (ids_default, None)
  /\ SearchCommands_ex Prepare_ok Query_bad p0 false t0 t0
     = ([], Some ("Error while finding commands: '" ++ "dial tcp: connection refused" ++ "'"))
  /\ SearchActions_ex Prepare_ok Query_bad p0 t0 t0
     = ([], Some ("Error while finding actions: '" ++ "dial tcp: connection refused" ++ "'"))
  /\ SearchAgents_ex Prepare_ok Query_bad p0 t0 t0
     = ([], Some ("Error while finding agents: '" ++ "dial tcp: connection refused" ++ "'"))
  /\ SearchInvestigators_ex Prepare_ok Query_bad p0 t0 t0
     = ([], Some ("Error while finding investigators: '" ++ "dial tcp: connection refused" ++ "'")).
Proof.
  destruct (at_store_ex searches_query_error Prepare_ok Query_bad p0 ids_default false t0 t0)
    as (HC & HA & HG & HI); [reflexivity|].
  split; [reflexivity|].
  split; [|split; [|split]]; [eapply HC | eapply HA | eapply HG | eapply HI]; reflexivity.
Defined.

(** X5 with the parameters built and searched at the same instant. *)
Lemma default_parameters_empty_where_witness :
  (wall t0 <= wall t0 + Hour)%Z /\ (wall t0 <= wall t0 + Hour)%Z
  /\ (exists q, SearchCommands ParseFloat_ex uint64_ex StatusSuccess_ex unit
                  (NewSearchParameters t0 t0) false t0 t0
             = Issued q [VUint64 (uint64_ex 100%float); VUint64 (uint64_ex 0%float)]
             /\ contains "WHERE  GROUP BY" q)
  /\ (exists q, SearchActions ParseFloat_ex uint64_ex unit (NewSearchParameters t0 t0) t0 t0
             = Issued q [VUint64 (uint64_ex 100%float); VUint64 (uint64_ex 0%float)]
             /\ contains "WHERE  GROUP BY" q)
  /\ (exists q, SearchAgents ParseFloat_ex uint64_ex unit (NewSearchParameters t0 t0) t0 t0
             = Issued q [VUint64 (uint64_ex 100%float); VUint64 (uint64_ex 0%float)]
             /\ contains "WHERE  GROUP BY" q)
  /\ (exists q, SearchInvestigators ParseFloat_ex uint64_ex unit (NewSearchParameters t0 t0) t0 t0
             = Issued q [VUint64 (uint64_ex 100%float); VUint64 (uint64_ex 0%float)]
             /\ contains "WHERE  GROUP BY" q).
Proof.
  split; [cbn; unfold Hour; lia|]. split; [cbn; unfold Hour; lia|].
  apply (default_parameters_empty_where ParseFloat_ex uint64_ex StatusSuccess_ex unit unit unit unit
           t0 t0 t0 t0); cbn; unfold Hour; lia.
Defined.
